(** * Machine-state orchestration: the [ApiHandler] of [src/handler/api.ts]

    The handler is written against four collaborators that it only imports
    (the state cache, the machine table, the identity provider and the
    smart-machine client).  They are taken here as interfaces (type classes);
    the handler itself is embedded, method by method, in a small state and
    exception monad over the handler object.  A list-backed table and a
    [gmap]-backed cache instantiate the interfaces so that every statement
    can be run on concrete data. *)

From Stdlib Require Import Ascii.
From stdpp Require Import gmap strings list.

(** ** Data model ([database/schema], [handler/model]) *)

(** Modelled from the spec: the [MachineStatus] enum of [database/schema]
    (section 3, "Status enum"). *)
Inductive MachineStatus : Type :=
| AVAILABLE
| AWAITING_DROPOFF
| RUNNING
| ERROR.

#[global] Instance MachineStatus_eq_dec : EqDecision MachineStatus.
Proof. solve_decision. Defined.

(** Modelled from the spec: the [MachineStateDocument] record of
    [database/schema] (section 3, "Machine record"); [jobId] is nullable. *)
Record MachineStateDocument : Type := {
  machineId : string;
  locationId : string;
  status : MachineStatus;
  jobId : option string
}.

#[global] Instance MachineStateDocument_eq_dec : EqDecision MachineStateDocument.
Proof. solve_decision. Defined.

(** Modelled from the spec: the [HttpResponseCode] enum of [handler/model]
    (section 6, "Response envelope"). *)
Inductive HttpResponseCode : Type :=
| OK
| NOT_FOUND
| BAD_REQUEST
| UNAUTHORIZED
| INTERNAL_SERVER_ERROR
| HARDWARE_ERROR.

#[global] Instance HttpResponseCode_eq_dec : EqDecision HttpResponseCode.
Proof. solve_decision. Defined.

(** The [machine] field of a response is a document, [undefined] or [null]. *)
Inductive MachineField : Type :=
| machine_undefined
| machine_null
| machine_doc (m : MachineStateDocument).

Record MachineResponseModel : Type := {
  statusCode : HttpResponseCode;
  machine : MachineField
}.

(** Modelled from the spec: the request envelope of [handler/model]
    (section 6): [RequestModel] and its three refinements, which the handler
    reaches by casts and by the spread [{ ...request, machineId }]. *)
Record RequestModel : Type := {
  method : string;
  path : string;
  token : string;
  req_locationId : string;
  req_jobId : string;
  req_machineId : string
}.

(** [{ ...request, machineId }] *)
Definition with_machineId (request : RequestModel) (id : string) : RequestModel :=
  {| method := method request; path := path request; token := token request;
     req_locationId := req_locationId request; req_jobId := req_jobId request;
     req_machineId := id |}.

(** What a [throw] carries.  [checkToken] throws
    [new Error(JSON.stringify({statusCode, message}))]; the object that is
    stringified is kept as it is.  What [startCycle] throws is not looked at
    by the handler. *)
Inductive Exn : Type :=
| Error_json (code : HttpResponseCode) (message : string)
| Error_device.

(** ** The collaborators, as interfaces *)

(** [DataCache<MachineStateDocument>]: [get(id) -> record|absent], [put(id, record)]. *)
Class DataCache (C : Type) : Type := {
  cache_get : C → string → option MachineStateDocument;
  cache_put : C → string → MachineStateDocument → C
}.

(** [MachineStateTable]. *)
Class MachineStateTable (T : Type) : Type := {
  listMachinesAtLocation : T → string → list MachineStateDocument;
  getMachine : T → string → option MachineStateDocument;
  updateMachineStatus : T → string → MachineStatus → T;
  updateMachineJobId : T → string → string → T
}.

(** [IdentityProviderClient]: [validateToken(token) -> bool]. *)
Class IdentityProviderClient (I : Type) : Type := {
  validateToken : I → string → bool
}.

(** [SmartMachineClient]: [startCycle(id)] returns ([true]) or throws
    ([false]), and may change the device's own state either way. *)
Class SmartMachineClient (S : Type) : Type := {
  startCycle : S → string → bool * S
}.

(** Every call the handler makes on a collaborator, in the order made. *)
Inductive Call : Type :=
| Idp_validateToken (tok : string)
| Cache_get (key : string)
| Cache_put (key : string) (value : MachineStateDocument)
| Table_listMachinesAtLocation (loc : string)
| Table_getMachine (id : string)
| Table_updateMachineStatus (id : string) (st : MachineStatus)
| Table_updateMachineJobId (id : string) (job : string)
| Smc_startCycle (id : string).

#[global] Instance Call_eq_dec : EqDecision Call.
Proof. solve_decision. Defined.

(** A call that writes to the table or to the cache. *)
Definition is_mutation (c : Call) : bool :=
  match c with
  | Cache_put _ _ | Table_updateMachineStatus _ _ | Table_updateMachineJobId _ _ => true
  | _ => false
  end.

Definition is_startCycle (c : Call) : bool :=
  match c with
  | Smc_startCycle _ => true
  | _ => false
  end.

(** ** Route patterns of [handle] *)

(** The character class [[a-zA-Z0-9-]]. *)
Definition is_id_char (c : ascii) : bool :=
  let n := nat_of_ascii c in
  ((97 <=? n) && (n <=? 122)) || ((65 <=? n) && (n <=? 90))
  || ((48 <=? n) && (n <=? 57)) || (n =? 45).

Fixpoint strip_prefix (p s : string) : option string :=
  match p, s with
  | EmptyString, _ => Some s
  | String a p', String b s' => if Ascii.eqb a b then strip_prefix p' s' else None
  | String _ _, EmptyString => None
  end.

(** The longest run of id characters at the head of [s], and what follows. *)
Fixpoint span_id (s : string) : string * string :=
  match s with
  | EmptyString => (EmptyString, EmptyString)
  | String c s' =>
      if is_id_char c
      then (String c (span_id s').1, (span_id s').2)
      else (EmptyString, s)
  end.

(** [path.match(/^\/machine\/([a-zA-Z0-9-]+)<tail>$/)], group 1.  No id
    character is a slash, so the greedy group is the whole run. *)
Definition match_machine_route (tail : string) (path : string) : option string :=
  match strip_prefix "/machine/" path with
  | None => None
  | Some rest =>
      let (id, after) := span_id rest in
      if negb (String.eqb id "") && String.eqb after tail then Some id else None
  end.

(** [/^\/machine\/([a-zA-Z0-9-]+)$/] *)
Definition getMachineMatch (path : string) : option string :=
  match_machine_route "" path.

(** [/^\/machine\/([a-zA-Z0-9-]+)\/start$/] *)
Definition startMachineMatch (path : string) : option string :=
  match_machine_route "/start" path.

(** The pattern in the words of the spec: an id is a non-empty string over
    letters, digits and the hyphen. *)
Fixpoint all_id_chars (s : string) : bool :=
  match s with
  | EmptyString => true
  | String c s' => is_id_char c && all_id_chars s'
  end.

Definition valid_id (id : string) : Prop :=
  id ≠ "" ∧ all_id_chars id = true.

(** ** The handler object and its monad *)

(** The four private fields of [ApiHandler], and the log of the calls made
    on them so far (oldest first).  The log is not a field of the source: it
    records what the code does, for the statements about what is or is not
    called. *)
Record ApiHandler (C T I S : Type) : Type := {
  cache : C;
  table : T;
  idp : I;
  smc : S;
  calls : list Call
}.
Arguments cache {C T I S} _.
Arguments table {C T I S} _.
Arguments idp {C T I S} _.
Arguments smc {C T I S} _.
Arguments calls {C T I S} _.

(** How a method ends: it returns a value or it throws. *)
Inductive Result (A : Type) : Type :=
| Returned (a : A)
| Thrown (e : Exn).
Arguments Returned {A} a.
Arguments Thrown {A} e.

Section Handler.
Context {C T I S : Type}.
Context `{!DataCache C, !MachineStateTable T,
          !IdentityProviderClient I, !SmartMachineClient S}.

Local Abbreviation this := (ApiHandler C T I S).

(** A method body: from the object before to the outcome and the object after. *)
Definition M (A : Type) : Type := this → Result A * this.

Definition ret {A} (a : A) : M A := fun h => (Returned a, h).

Definition throw {A} (e : Exn) : M A := fun h => (Thrown e, h).

Definition bind {A B} (m : M A) (k : A → M B) : M B :=
  fun h =>
    match m h with
    | (Returned a, h') => k a h'
    | (Thrown e, h') => (Thrown e, h')
    end.

(** [try { body } catch (error) { handler }] *)
Definition try_catch {A} (body : M A) (handler : Exn → M A) : M A :=
  fun h =>
    match body h with
    | (Returned a, h') => (Returned a, h')
    | (Thrown e, h') => handler e h'
    end.

Notation "x <- m ;; k" := (bind m (fun x => k))
  (at level 100, m at next level, right associativity).
Notation "m ;;; k" := (bind m (fun _ => k))
  (at level 100, right associativity).

Definition logged (c : Call) (h : this) : this :=
  {| cache := cache h; table := table h; idp := idp h; smc := smc h;
     calls := calls h ++ [c] |}.

(** [this.idp.validateToken(token)] *)
Definition this_idp_validateToken (tok : string) : M bool :=
  fun h => (Returned (validateToken (idp h) tok), logged (Idp_validateToken tok) h).

(** [this.cache.get(key)] *)
Definition this_cache_get (key : string) : M (option MachineStateDocument) :=
  fun h => (Returned (cache_get (cache h) key), logged (Cache_get key) h).

(** [this.cache.put(key, value)] *)
Definition this_cache_put (key : string) (value : MachineStateDocument) : M unit :=
  fun h =>
    (Returned (),
     {| cache := cache_put (cache h) key value; table := table h; idp := idp h;
        smc := smc h; calls := calls h ++ [Cache_put key value] |}).

(** [this.table.listMachinesAtLocation(locationId)] *)
Definition this_table_listMachinesAtLocation (loc : string)
  : M (list MachineStateDocument) :=
  fun h => (Returned (listMachinesAtLocation (table h) loc),
            logged (Table_listMachinesAtLocation loc) h).

(** [this.table.getMachine(machineId)] *)
Definition this_table_getMachine (id : string) : M (option MachineStateDocument) :=
  fun h => (Returned (getMachine (table h) id), logged (Table_getMachine id) h).

(** [this.table.updateMachineStatus(machineId, status)] *)
Definition this_table_updateMachineStatus (id : string) (st : MachineStatus) : M unit :=
  fun h =>
    (Returned (),
     {| cache := cache h; table := updateMachineStatus (table h) id st; idp := idp h;
        smc := smc h; calls := calls h ++ [Table_updateMachineStatus id st] |}).

(** [this.table.updateMachineJobId(machineId, jobId)] *)
Definition this_table_updateMachineJobId (id : string) (job : string) : M unit :=
  fun h =>
    (Returned (),
     {| cache := cache h; table := updateMachineJobId (table h) id job; idp := idp h;
        smc := smc h; calls := calls h ++ [Table_updateMachineJobId id job] |}).

(** [this.smc.startCycle(machineId)] *)
Definition this_smc_startCycle (id : string) : M unit :=
  fun h =>
    let (ok, d) := startCycle (smc h) id in
    let h' := {| cache := cache h; table := table h; idp := idp h; smc := d;
                 calls := calls h ++ [Smc_startCycle id] |} in
    if ok then (Returned (), h') else (Thrown Error_device, h').

(** ** The methods of [ApiHandler] *)

(** [checkToken]: [!token] holds of the empty string only, and [||] does
    not evaluate its right operand when the left one holds. *)
Definition checkToken (tok : string) : M unit :=
  invalid <- (if String.eqb tok ""
              then ret true
              else (valid <- this_idp_validateToken tok ;; ret (negb valid))) ;;
  if (invalid : bool)
  then throw (Error_json UNAUTHORIZED "Invalid token")
  else ret ().

Definition handleRequestMachine (request : RequestModel) : M MachineResponseModel :=
  machines <- this_table_listMachinesAtLocation (req_locationId request) ;;
  let available :=
    List.find (fun m => bool_decide (status m = AVAILABLE)) machines in
  match available with
  | None => ret {| statusCode := NOT_FOUND; machine := machine_undefined |}
  | Some available =>
      this_table_updateMachineStatus (machineId available) AWAITING_DROPOFF ;;;
      this_table_updateMachineJobId (machineId available) (req_jobId request) ;;;
      updatedMachine <- this_table_getMachine (machineId available) ;;
      match updatedMachine with
      | Some updatedMachine =>
          this_cache_put (machineId updatedMachine) updatedMachine ;;;
          ret {| statusCode := OK; machine := machine_doc updatedMachine |}
      | None => ret {| statusCode := NOT_FOUND; machine := machine_undefined |}
      end
  end.

Definition handleGetMachine (request : RequestModel) : M MachineResponseModel :=
  cached <- this_cache_get (req_machineId request) ;;
  found <- match cached with
           | Some m => ret (Some m)
           | None =>
               stored <- this_table_getMachine (req_machineId request) ;;
               match stored with
               | Some m => this_cache_put (machineId m) m ;;; ret (Some m)
               | None => ret None
               end
           end ;;
  match found with
  | None => ret {| statusCode := NOT_FOUND; machine := machine_undefined |}
  | Some m => ret {| statusCode := OK; machine := machine_doc m |}
  end.

Definition handleStartMachine (request : RequestModel) : M MachineResponseModel :=
  cached <- this_cache_get (req_machineId request) ;;
  resolved <- match cached with
              | Some m => ret (Some m)
              | None => this_table_getMachine (req_machineId request)
              end ;;
  match resolved with
  | None => ret {| statusCode := NOT_FOUND; machine := machine_undefined |}
  | Some m =>
      if negb (bool_decide (status m = AWAITING_DROPOFF))
      then ret {| statusCode := BAD_REQUEST; machine := machine_doc m |}
      else
        try_catch
          (this_smc_startCycle (machineId m) ;;;
           this_table_updateMachineStatus (machineId m) RUNNING ;;;
           updatedMachine <- this_table_getMachine (machineId m) ;;
           match updatedMachine with
           | Some updatedMachine =>
               this_cache_put (machineId updatedMachine) updatedMachine ;;;
               ret {| statusCode := OK; machine := machine_doc updatedMachine |}
           | None => ret {| statusCode := NOT_FOUND; machine := machine_undefined |}
           end)
          (fun _ =>
             this_table_updateMachineStatus (machineId m) ERROR ;;;
             errorMachine <- this_table_getMachine (machineId m) ;;
             match errorMachine with
             | Some errorMachine =>
                 this_cache_put (machineId errorMachine) errorMachine ;;;
                 ret {| statusCode := HARDWARE_ERROR; machine := machine_doc errorMachine |}
             | None => ret {| statusCode := NOT_FOUND; machine := machine_undefined |}
             end)
  end.

Definition handle (request : RequestModel) : M MachineResponseModel :=
  checkToken (token request) ;;;
  if String.eqb (method request) "POST" && String.eqb (path request) "/machine/request"
  then handleRequestMachine request
  else
    let getMachineMatch := getMachineMatch (path request) in
    match String.eqb (method request) "GET", getMachineMatch with
    | true, Some machineId => handleGetMachine (with_machineId request machineId)
    | _, _ =>
        let startMachineMatch := startMachineMatch (path request) in
        match String.eqb (method request) "POST", startMachineMatch with
        | true, Some machineId => handleStartMachine (with_machineId request machineId)
        | _, _ => ret {| statusCode := INTERNAL_SERVER_ERROR; machine := machine_null |}
        end
    end.

End Handler.

(** ** What the collaborators are assumed to do

    Records are values: what [getMachine] or [get] returns is the snapshot
    held at that moment, as in the spec's data model.  Neither [database/table]
    nor [database/cache] is at hand, so whether the two hand out one shared
    object is not decided here; the handler itself never writes to a record
    it holds. *)

Definition set_status (st : MachineStatus) (m : MachineStateDocument) : MachineStateDocument :=
  {| machineId := machineId m; locationId := locationId m; status := st; jobId := jobId m |}.

Definition set_jobId (job : string) (m : MachineStateDocument) : MachineStateDocument :=
  {| machineId := machineId m; locationId := locationId m; status := status m;
     jobId := Some job |}.

(** Modelled from the spec: the contract of the absent [database/table]
    (section 6, "Machine Store"), read as a keyed store of records:
    a record is found under its own [machineId], and an update changes the
    named field of the record with that id and no other record.  Nothing
    says that a listed machine can be read back by id: a re-read that finds
    no record is a case of its own (section 4.2, step 6). *)
Class MachineStateTableLaws (T : Type) `{!MachineStateTable T} : Prop := {
  getMachine_machineId (t : T) id m :
    getMachine t id = Some m → machineId m = id;
  getMachine_updateMachineStatus (t : T) id st id' :
    getMachine (updateMachineStatus t id st) id' =
      if decide (id = id') then set_status st <$> getMachine t id' else getMachine t id';
  getMachine_updateMachineJobId (t : T) id job id' :
    getMachine (updateMachineJobId t id job) id' =
      if decide (id = id') then set_jobId job <$> getMachine t id' else getMachine t id'
}.

(** Modelled from the spec: the contract of the absent [database/cache]
    (section 3, "Cache entry"): [get] returns what was last [put] under
    that key. *)
Class DataCacheLaws (C : Type) `{!DataCache C} : Prop := {
  cache_get_put (c : C) k v k' :
    cache_get (cache_put c k v) k' = if decide (k = k') then Some v else cache_get c k'
}.

(** ** Instances to run the handler on *)

(** Modelled from the spec: a table as the list of its records, in listing
    order. *)
Definition ListTable : Type := list MachineStateDocument.

#[global] Instance ListTable_table : MachineStateTable ListTable := {
  listMachinesAtLocation t loc := List.filter (fun m => String.eqb (locationId m) loc) t;
  getMachine t id := List.find (fun m => String.eqb (machineId m) id) t;
  updateMachineStatus t id st :=
    List.map (fun m => if String.eqb (machineId m) id then set_status st m else m) t;
  updateMachineJobId t id job :=
    List.map (fun m => if String.eqb (machineId m) id then set_jobId job m else m) t
}.

(** Modelled from the spec: a cache as a finite map from key to snapshot. *)
Abbreviation MapCache := (gmap string MachineStateDocument).

#[global] Instance MapCache_cache : DataCache MapCache := {
  cache_get c k := c !! k;
  cache_put c k v := <[k := v]> c
}.

(** An identity provider that accepts the tokens of a list. *)
Definition TokenList : Type := list string.

#[global] Instance TokenList_idp : IdentityProviderClient TokenList := {
  validateToken valid tok := bool_decide (tok ∈ valid)
}.

(** A device controller that fails on the machines of a list. *)
Definition BrokenList : Type := list string.

#[global] Instance BrokenList_smc : SmartMachineClient BrokenList := {
  startCycle broken id := (negb (bool_decide (id ∈ broken)), broken)
}.

(** ** Vocabulary of the statements *)

Section Vocabulary.
Context {C T I S : Type}.
Context `{!DataCache C, !MachineStateTable T,
          !IdentityProviderClient I, !SmartMachineClient S}.

Local Abbreviation this := (ApiHandler C T I S).

(** [this.cache.get(id) || this.table.getMachine(id)], as a value. *)
Definition resolved (h : this) (id : string) : option MachineStateDocument :=
  match cache_get (cache h) id with
  | Some m => Some m
  | None => getMachine (table h) id
  end.

(** The machine [find] picks in the listing of a location. *)
Definition firstAvailable (h : this) (loc : string) : option MachineStateDocument :=
  List.find (fun m => bool_decide (status m = AVAILABLE))
            (listMachinesAtLocation (table h) loc).

(** The table after the two writes of a reservation. *)
Definition reserved (t : T) (id job : string) : T :=
  updateMachineJobId (updateMachineStatus t id AWAITING_DROPOFF) id job.

(** The same handler object over another table. *)
Definition with_table (t : T) (h : this) : this :=
  {| cache := cache h; table := t; idp := idp h; smc := smc h; calls := calls h |}.

(** Table and cache hold the same for machine [id] in [h] and [h']. *)
Definition same_machine (id : string) (h h' : this) : Prop :=
  getMachine (table h') id = getMachine (table h) id
  ∧ cache_get (cache h') id = cache_get (cache h) id.

(** Table and cache are the same objects in [h] and [h']. *)
Definition same_store (h h' : this) : Prop :=
  table h' = table h ∧ cache h' = cache h.

(** Every cache entry sits under the id of the machine it describes. *)
Definition cache_keyed (c : C) : Prop :=
  ∀ k m, cache_get c k = Some m → machineId m = k.

(** The handler object after the calls [l], none of which writes. *)
Definition logs (l : list Call) (h : this) : this :=
  {| cache := cache h; table := table h; idp := idp h; smc := smc h;
     calls := calls h ++ l |}.

(** The calls of the lookup [cache.get(id) || table.getMachine(id)]. *)
Definition resolve_calls (h : this) (id : string) : list Call :=
  match cache_get (cache h) id with
  | Some _ => [Cache_get id]
  | None => [Cache_get id; Table_getMachine id]
  end.

End Vocabulary.

(** ** Vocabulary of the further statements *)

(** A call that writes to the table. *)
Definition is_table_write (c : Call) : bool :=
  match c with
  | Table_updateMachineStatus _ _ | Table_updateMachineJobId _ _ => true
  | _ => false
  end.

(** A call on the cache, reading or writing. *)
Definition is_cache_call (c : Call) : bool :=
  match c with
  | Cache_get _ | Cache_put _ _ => true
  | _ => false
  end.

(** The pairs of status code and machine field that the [return] statements
    of the handler build. *)
Definition envelope_shape (r : MachineResponseModel) : bool :=
  match statusCode r, machine r with
  | OK, machine_doc _
  | BAD_REQUEST, machine_doc _
  | HARDWARE_ERROR, machine_doc _
  | NOT_FOUND, machine_undefined
  | INTERNAL_SERVER_ERROR, machine_null => true
  | _, _ => false
  end.

Section MoreVocabulary.
Context {C T I S : Type}.
Context `{!DataCache C, !MachineStateTable T,
          !IdentityProviderClient I, !SmartMachineClient S}.

Local Abbreviation this := (ApiHandler C T I S).

(** Every cache entry is the record the table holds under that key. *)
Definition coherent (h : this) : Prop :=
  ∀ k m, cache_get (cache h) k = Some m → getMachine (table h) k = Some m.

(** The same handler object over another cache. *)
Definition with_cache (c : C) (h : this) : this :=
  {| cache := c; table := table h; idp := idp h; smc := smc h; calls := calls h |}.

(** [checkToken(request.token)] passes. *)
Definition authorized (h : this) (request : RequestModel) : Prop :=
  token request ≠ "" ∧ validateToken (idp h) (token request) = true.

(** The handler object once [checkToken] has passed. *)
Definition checked (request : RequestModel) (h : this) : this :=
  logs [Idp_validateToken (token request)] h.

End MoreVocabulary.

(** ** A small installation to run the handler on *)

Definition m0 : MachineStateDocument :=
  {| machineId := "m0"; locationId := "loc-1"; status := RUNNING; jobId := Some "job-0" |}.
Definition m1 : MachineStateDocument :=
  {| machineId := "m1"; locationId := "loc-1"; status := AWAITING_DROPOFF;
     jobId := Some "job-1" |}.
Definition m2 : MachineStateDocument :=
  {| machineId := "m2"; locationId := "loc-1"; status := AWAITING_DROPOFF;
     jobId := Some "job-2" |}.
Definition m3 : MachineStateDocument :=
  {| machineId := "m3"; locationId := "loc-1"; status := AVAILABLE; jobId := None |}.
Definition m4 : MachineStateDocument :=
  {| machineId := "m4"; locationId := "loc-1"; status := AVAILABLE; jobId := None |}.
Definition m5 : MachineStateDocument :=
  {| machineId := "m5"; locationId := "loc-2"; status := ERROR; jobId := None |}.

(** Five machines at loc-1 and one at loc-2, an empty cache, one accepted
    token, and a device controller that fails on m2. *)
Definition demo : ApiHandler MapCache ListTable TokenList BrokenList :=
  {| cache := ∅; table := [m0; m1; m2; m3; m4; m5]; idp := ["secret"];
     smc := ["m2"]; calls := [] |}.

(** The same installation with a cache that still holds m1 as RUNNING. *)
Definition demo_stale : ApiHandler MapCache ListTable TokenList BrokenList :=
  {| cache := {[ "m1" := set_status RUNNING m1 ]}; table := [m0; m1; m2; m3; m4; m5];
     idp := ["secret"]; smc := ["m2"]; calls := [] |}.

Definition request_of (tok meth pth : string) : RequestModel :=
  {| method := meth; path := pth; token := tok;
     req_locationId := "loc-1"; req_jobId := "job-7"; req_machineId := "" |}.

(** A table whose listing is served but whose records cannot be read back
    by id: the "record vanished" world of the re-read. *)
Inductive ListingOnly : Type :=
| listing_only (listing : list MachineStateDocument).

#[global] Instance ListingOnly_table : MachineStateTable ListingOnly := {
  listMachinesAtLocation t loc :=
    match t with
    | listing_only l => List.filter (fun m => String.eqb (locationId m) loc) l
    end;
  getMachine t id := None;
  updateMachineStatus t id st := t;
  updateMachineJobId t id job := t
}.

Definition demo_vanishing : ApiHandler MapCache ListingOnly TokenList BrokenList :=
  {| cache := ∅; table := listing_only [m0; m3]; idp := ["secret"];
     smc := []; calls := [] |}.

(** A machine the cache still holds in AWAITING_DROPOFF and the table does
    not hold. *)
Definition m7 : MachineStateDocument :=
  {| machineId := "m7"; locationId := "loc-1"; status := AWAITING_DROPOFF;
     jobId := Some "job-3" |}.

Definition demo_orphan : ApiHandler MapCache ListTable TokenList BrokenList :=
  {| cache := {[ "m7" := m7 ]}; table := [m0; m1; m2; m3; m4; m5];
     idp := ["secret"]; smc := ["m2"]; calls := [] |}.

(** ** The instances keep the contracts *)

Lemma ListTable_find_map (f : MachineStateDocument → MachineStateDocument)
    (id id' : string) (t : ListTable) :
  (∀ m, machineId (f m) = machineId m) →
  List.find (fun m => String.eqb (machineId m) id')
    (List.map (fun m => if String.eqb (machineId m) id then f m else m) t)
  = if decide (id = id')
    then f <$> List.find (fun m => String.eqb (machineId m) id') t
    else List.find (fun m => String.eqb (machineId m) id') t.
Proof.
  intros Hid. induction t as [|m t IH]; simpl.
  - by case_decide.
  - destruct (String.eqb (machineId m) id) eqn:E.
    + apply String.eqb_eq in E. rewrite Hid.
      destruct (String.eqb (machineId m) id') eqn:E'.
      * apply String.eqb_eq in E'. rewrite decide_True by congruence. done.
      * rewrite IH. done.
    + destruct (String.eqb (machineId m) id') eqn:E'.
      * apply String.eqb_eq in E'. apply String.eqb_neq in E.
        rewrite decide_False by congruence. done.
      * rewrite IH. done.
Qed.

#[global] Instance ListTable_laws : MachineStateTableLaws ListTable.
Proof.
  split.
  - intros t id m Hm. apply List.find_some in Hm as [_ Hm].
    by apply String.eqb_eq.
  - intros t id st id'. apply ListTable_find_map. done.
  - intros t id job id'. apply ListTable_find_map. done.
Qed.

#[global] Instance MapCache_laws : DataCacheLaws MapCache.
Proof. split. intros c k v k'. apply lookup_insert. Qed.

#[global] Instance ListingOnly_laws : MachineStateTableLaws ListingOnly.
Proof. split; intros; simpl in *; [done|by case_decide..]. Qed.

Lemma MapCache_empty_keyed : cache_keyed (∅ : MapCache).
Proof.
  intros k m. change (cache_get (∅ : MapCache) k) with ((∅ : MapCache) !! k).
  by rewrite lookup_empty.
Qed.

(** ** Route patterns: the matcher against the pattern in words *)

Lemma append_empty_l (s : string) : "" +:+ s = s.
Proof. reflexivity. Qed.

Lemma append_String (a : ascii) (p s : string) :
  String a p +:+ s = String a (p +:+ s).
Proof. reflexivity. Qed.

Lemma append_empty_r (s : string) : s +:+ "" = s.
Proof. induction s as [|c s IH]; [done|]. by rewrite append_String, IH. Qed.

Lemma strip_prefix_Some (p s rest : string) :
  strip_prefix p s = Some rest ↔ s = p +:+ rest.
Proof.
  revert s. induction p as [|a p IH]; intros s; simpl.
  - rewrite append_empty_l. split; congruence.
  - rewrite append_String. destruct s as [|b s]; [split; discriminate|].
    destruct (Ascii.eqb a b) eqn:E.
    + apply Ascii.eqb_eq in E as ->. rewrite IH. split; congruence.
    + apply Ascii.eqb_neq in E. split; [discriminate|congruence].
Qed.

Lemma span_id_app (s : string) : s = (span_id s).1 +:+ (span_id s).2.
Proof.
  induction s as [|c s IH]; simpl; [done|].
  destruct (is_id_char c); simpl; [|done].
  rewrite append_String. congruence.
Qed.

Lemma span_id_all (s : string) : all_id_chars (span_id s).1 = true.
Proof.
  induction s as [|c s IH]; simpl; [done|].
  destruct (is_id_char c) eqn:E; simpl; [by rewrite E|done].
Qed.

(** A run of id characters followed by a tail that does not start with one
    is split exactly there. *)
Lemma span_id_split (id tail : string) :
  all_id_chars id = true →
  (match tail with EmptyString => true | String c _ => negb (is_id_char c) end) = true →
  span_id (id +:+ tail) = (id, tail).
Proof.
  intros Hid Htail. induction id as [|c id IH]; simpl in Hid.
  - rewrite append_empty_l. destruct tail as [|c tail]; simpl; [done|].
    apply negb_true_iff in Htail. by rewrite Htail.
  - apply andb_true_iff in Hid as [Hc Hid].
    rewrite append_String. simpl. rewrite Hc, (IH Hid). done.
Qed.

Lemma match_machine_route_Some (tail path id : string) :
  (match tail with EmptyString => true | String c _ => negb (is_id_char c) end) = true →
  match_machine_route tail path = Some id
  ↔ valid_id id ∧ path = "/machine/" +:+ id +:+ tail.
Proof.
  intros Htail. unfold match_machine_route, valid_id. split.
  - destruct (strip_prefix "/machine/" path) as [rest|] eqn:E; [|discriminate].
    apply strip_prefix_Some in E.
    pose proof (span_id_app rest) as Happ. pose proof (span_id_all rest) as Hall.
    destruct (span_id rest) as [i after]; simpl in *.
    destruct (String.eqb i "") eqn:Ei; simpl; [discriminate|].
    destruct (String.eqb after tail) eqn:Et; [|discriminate].
    apply String.eqb_neq in Ei. apply String.eqb_eq in Et.
    intros [= <-]. subst after. split; [done|]. by rewrite E, Happ.
  - intros [[Hne Hall] ->].
    assert (strip_prefix "/machine/" ("/machine/" +:+ id +:+ tail) = Some (id +:+ tail))
      as -> by by apply strip_prefix_Some.
    rewrite span_id_split by done.
    apply String.eqb_neq in Hne. by rewrite Hne, String.eqb_refl.
Qed.

Lemma getMachineMatch_Some (path id : string) :
  getMachineMatch path = Some id ↔ valid_id id ∧ path = "/machine/" +:+ id.
Proof.
  unfold getMachineMatch. rewrite match_machine_route_Some by done.
  by rewrite append_empty_r.
Qed.

Lemma startMachineMatch_Some (path id : string) :
  startMachineMatch path = Some id
  ↔ valid_id id ∧ path = "/machine/" +:+ id +:+ "/start".
Proof. unfold startMachineMatch. by rewrite match_machine_route_Some. Qed.

(** ** Properties of the handler, for any collaborators *)

Ltac run_handler :=
  unfold handleStartMachine, handleGetMachine, handleRequestMachine, checkToken,
    bind, ret, throw, try_catch, this_idp_validateToken, this_cache_get,
    this_cache_put, this_table_listMachinesAtLocation, this_table_getMachine,
    this_table_updateMachineStatus, this_table_updateMachineJobId,
    this_smc_startCycle, logged;
  simpl.

Ltac flatten_calls := repeat rewrite <- app_assoc; simpl.

Section Properties.
Context {C T I S : Type}.
Context `{!DataCache C, !MachineStateTable T,
          !IdentityProviderClient I, !SmartMachineClient S}.

Local Abbreviation this := (ApiHandler C T I S).

(** *** Each method, path by path *)

Lemma checkToken_valid (h : this) (tok : string) :
  tok ≠ "" → validateToken (idp h) tok = true →
  checkToken tok h = (Returned (), logs [Idp_validateToken tok] h).
Proof.
  intros Hne Hv. run_handler. apply String.eqb_neq in Hne as ->. simpl.
  by rewrite Hv.
Qed.

Lemma checkToken_invalid (h : this) (tok : string) :
  tok = "" ∨ validateToken (idp h) tok = false →
  checkToken tok h
  = (Thrown (Error_json UNAUTHORIZED "Invalid token"),
     logs (if String.eqb tok "" then [] else [Idp_validateToken tok]) h).
Proof.
  intros Hbad. unfold logs. run_handler.
  destruct (String.eqb tok "") eqn:E; simpl.
  - rewrite app_nil_r. by destruct h.
  - destruct Hbad as [Hbad|Hbad].
    + apply String.eqb_neq in E. done.
    + by rewrite Hbad.
Qed.

Lemma handleRequestMachine_none (h : this) (request : RequestModel) :
  firstAvailable h (req_locationId request) = None →
  handleRequestMachine request h
  = (Returned {| statusCode := NOT_FOUND; machine := machine_undefined |},
     logs [Table_listMachinesAtLocation (req_locationId request)] h).
Proof. unfold firstAvailable. intros Hnone. run_handler. by rewrite Hnone. Qed.

Lemma handleRequestMachine_some (h : this) (request : RequestModel)
    (a : MachineStateDocument) :
  firstAvailable h (req_locationId request) = Some a →
  handleRequestMachine request h
  = match getMachine (reserved (table h) (machineId a) (req_jobId request))
                     (machineId a) with
    | Some u =>
        (Returned {| statusCode := OK; machine := machine_doc u |},
         {| cache := cache_put (cache h) (machineId u) u;
            table := reserved (table h) (machineId a) (req_jobId request);
            idp := idp h; smc := smc h;
            calls := calls h ++
              [Table_listMachinesAtLocation (req_locationId request);
               Table_updateMachineStatus (machineId a) AWAITING_DROPOFF;
               Table_updateMachineJobId (machineId a) (req_jobId request);
               Table_getMachine (machineId a);
               Cache_put (machineId u) u] |})
    | None =>
        (Returned {| statusCode := NOT_FOUND; machine := machine_undefined |},
         {| cache := cache h;
            table := reserved (table h) (machineId a) (req_jobId request);
            idp := idp h; smc := smc h;
            calls := calls h ++
              [Table_listMachinesAtLocation (req_locationId request);
               Table_updateMachineStatus (machineId a) AWAITING_DROPOFF;
               Table_updateMachineJobId (machineId a) (req_jobId request);
               Table_getMachine (machineId a)] |})
    end.
Proof.
  unfold firstAvailable, reserved. intros Ha. run_handler. rewrite Ha. simpl.
  destruct (getMachine (updateMachineJobId _ _ _) _); simpl; by flatten_calls.
Qed.

Lemma handleGetMachine_hit (h : this) (request : RequestModel)
    (m : MachineStateDocument) :
  cache_get (cache h) (req_machineId request) = Some m →
  handleGetMachine request h
  = (Returned {| statusCode := OK; machine := machine_doc m |},
     logs [Cache_get (req_machineId request)] h).
Proof. intros Hc. run_handler. by rewrite Hc. Qed.

Lemma handleGetMachine_fill (h : this) (request : RequestModel)
    (m : MachineStateDocument) :
  cache_get (cache h) (req_machineId request) = None →
  getMachine (table h) (req_machineId request) = Some m →
  handleGetMachine request h
  = (Returned {| statusCode := OK; machine := machine_doc m |},
     {| cache := cache_put (cache h) (machineId m) m;
        table := table h; idp := idp h; smc := smc h;
        calls := calls h ++ [Cache_get (req_machineId request);
                             Table_getMachine (req_machineId request);
                             Cache_put (machineId m) m] |}).
Proof.
  intros Hc Ht. run_handler. rewrite Hc. simpl. rewrite Ht. simpl.
  by flatten_calls.
Qed.

Lemma handleGetMachine_miss (h : this) (request : RequestModel) :
  cache_get (cache h) (req_machineId request) = None →
  getMachine (table h) (req_machineId request) = None →
  handleGetMachine request h
  = (Returned {| statusCode := NOT_FOUND; machine := machine_undefined |},
     logs [Cache_get (req_machineId request);
           Table_getMachine (req_machineId request)] h).
Proof.
  intros Hc Ht. unfold logs. run_handler. rewrite Hc. simpl. rewrite Ht. simpl.
  by flatten_calls.
Qed.

Lemma handleStartMachine_unresolved (h : this) (request : RequestModel) :
  resolved h (req_machineId request) = None →
  handleStartMachine request h
  = (Returned {| statusCode := NOT_FOUND; machine := machine_undefined |},
     logs (resolve_calls h (req_machineId request)) h).
Proof.
  unfold resolved, resolve_calls, logs. intros Hr. run_handler.
  destruct (cache_get (cache h) (req_machineId request)); [done|].
  simpl. rewrite Hr. simpl. by flatten_calls.
Qed.

Lemma handleStartMachine_rejected (h : this) (request : RequestModel)
    (m : MachineStateDocument) :
  resolved h (req_machineId request) = Some m →
  status m ≠ AWAITING_DROPOFF →
  handleStartMachine request h
  = (Returned {| statusCode := BAD_REQUEST; machine := machine_doc m |},
     logs (resolve_calls h (req_machineId request)) h).
Proof.
  unfold resolved, resolve_calls, logs. intros Hr Hst. run_handler.
  destruct (cache_get (cache h) (req_machineId request)) as [c|]; simpl.
  - injection Hr as ->. rewrite bool_decide_false by done. done.
  - rewrite Hr. rewrite bool_decide_false by done. simpl. by flatten_calls.
Qed.

(** Past the guard, the whole of Start in one equation: [ok] is whether
    [startCycle] returned, [d] the device state it left. *)
Lemma handleStartMachine_started (h : this) (request : RequestModel)
    (m : MachineStateDocument) (ok : bool) (d : S) :
  resolved h (req_machineId request) = Some m →
  status m = AWAITING_DROPOFF →
  startCycle (smc h) (machineId m) = (ok, d) →
  handleStartMachine request h
  = match getMachine (updateMachineStatus (table h) (machineId m)
                        (if ok then RUNNING else ERROR)) (machineId m) with
    | Some u =>
        (Returned {| statusCode := if ok then OK else HARDWARE_ERROR;
                     machine := machine_doc u |},
         {| cache := cache_put (cache h) (machineId u) u;
            table := updateMachineStatus (table h) (machineId m)
                       (if ok then RUNNING else ERROR);
            idp := idp h; smc := d;
            calls := calls h ++ resolve_calls h (req_machineId request) ++
              [Smc_startCycle (machineId m);
               Table_updateMachineStatus (machineId m) (if ok then RUNNING else ERROR);
               Table_getMachine (machineId m);
               Cache_put (machineId u) u] |})
    | None =>
        (Returned {| statusCode := NOT_FOUND; machine := machine_undefined |},
         {| cache := cache h;
            table := updateMachineStatus (table h) (machineId m)
                       (if ok then RUNNING else ERROR);
            idp := idp h; smc := d;
            calls := calls h ++ resolve_calls h (req_machineId request) ++
              [Smc_startCycle (machineId m);
               Table_updateMachineStatus (machineId m) (if ok then RUNNING else ERROR);
               Table_getMachine (machineId m)] |})
    end.
Proof.
  unfold resolved, resolve_calls. intros Hr Hst Hsmc. run_handler.
  destruct (cache_get (cache h) (req_machineId request)) as [c|]; simpl.
  - injection Hr as ->. rewrite bool_decide_true by done. simpl.
    rewrite Hsmc. destruct ok; simpl;
      destruct (getMachine (updateMachineStatus _ _ _) _); simpl;
      by flatten_calls.
  - rewrite Hr. simpl. rewrite bool_decide_true by done. simpl.
    rewrite Hsmc. destruct ok; simpl;
      destruct (getMachine (updateMachineStatus _ _ _) _); simpl;
      by flatten_calls.
Qed.

(** *** The selection of Reserve *)

Lemma firstAvailable_None (h : this) (loc : string) :
  firstAvailable h loc = None
  ↔ Forall (fun m => status m ≠ AVAILABLE) (listMachinesAtLocation (table h) loc).
Proof.
  unfold firstAvailable.
  induction (listMachinesAtLocation (table h) loc) as [|m l IH]; simpl.
  - split; [constructor|done].
  - case_bool_decide as E.
    + split; [discriminate|]. by inversion 1.
    + rewrite IH. split; [by constructor|by inversion 1].
Qed.

Lemma firstAvailable_split (h : this) (loc : string)
    (pre post : list MachineStateDocument) (a : MachineStateDocument) :
  listMachinesAtLocation (table h) loc = pre ++ a :: post →
  Forall (fun m => status m ≠ AVAILABLE) pre →
  status a = AVAILABLE →
  firstAvailable h loc = Some a.
Proof.
  unfold firstAvailable. intros -> Hpre Ha.
  induction Hpre as [|m pre Hm _ IH]; simpl.
  - by rewrite bool_decide_true.
  - by rewrite bool_decide_false.
Qed.

Lemma firstAvailable_listed (h : this) (loc : string) (a : MachineStateDocument) :
  firstAvailable h loc = Some a →
  In a (listMachinesAtLocation (table h) loc) ∧ status a = AVAILABLE.
Proof.
  unfold firstAvailable. intros Ha. apply List.find_some in Ha as [Hin Hst].
  split; [done|]. by apply bool_decide_eq_true in Hst.
Qed.

Lemma same_machine_logs (id : string) (l : list Call) (h : this) :
  same_machine id h (logs l h).
Proof. done. Qed.

Lemma resolve_calls_read_only (h : this) (id : string) :
  Forall (fun c => is_mutation c = false ∧ is_startCycle c = false)
         (resolve_calls h id).
Proof.
  unfold resolve_calls. destruct (cache_get (cache h) id); repeat constructor.
Qed.

(** *** Statements that hold for any collaborators *)

(** C5.  Start on a machine whose resolved record is not in
    AWAITING_DROPOFF returns BAD_REQUEST with that record.  Table, cache
    and device are left as they were; the calls made are those of the
    lookup, none of which writes or reaches the device controller. *)
Theorem start_guard_rejects (h : this) (request : RequestModel)
    (m : MachineStateDocument) :
  resolved h (req_machineId request) = Some m →
  status m ≠ AWAITING_DROPOFF →
  (handleStartMachine request h).1
    = Returned {| statusCode := BAD_REQUEST; machine := machine_doc m |}
  ∧ same_store h (handleStartMachine request h).2
  ∧ smc (handleStartMachine request h).2 = smc h
  ∧ calls (handleStartMachine request h).2
    = calls h ++ resolve_calls h (req_machineId request)
  ∧ Forall (fun c => is_mutation c = false ∧ is_startCycle c = false)
           (resolve_calls h (req_machineId request)).
Proof.
  intros Hr Hst. rewrite (handleStartMachine_rejected h request m Hr Hst).
  repeat (split; [done|]). apply resolve_calls_read_only.
Qed.

(** C6.  Get reads the cache first.  On a hit the cached record is
    returned with OK and the cache read is the only call: the table is not
    read.  On a miss the table is read: a record found there is put in the
    cache under its id and returned with OK; with no record in either, the
    result is NOT_FOUND with no machine, and nothing is written. *)
Theorem get_cache_first (h : this) (request : RequestModel) :
  (∀ m, cache_get (cache h) (req_machineId request) = Some m →
        handleGetMachine request h
        = (Returned {| statusCode := OK; machine := machine_doc m |},
           logs [Cache_get (req_machineId request)] h))
  ∧ (∀ m, cache_get (cache h) (req_machineId request) = None →
          getMachine (table h) (req_machineId request) = Some m →
          handleGetMachine request h
          = (Returned {| statusCode := OK; machine := machine_doc m |},
             {| cache := cache_put (cache h) (machineId m) m;
                table := table h; idp := idp h; smc := smc h;
                calls := calls h ++ [Cache_get (req_machineId request);
                                     Table_getMachine (req_machineId request);
                                     Cache_put (machineId m) m] |}))
  ∧ (cache_get (cache h) (req_machineId request) = None →
     getMachine (table h) (req_machineId request) = None →
     handleGetMachine request h
     = (Returned {| statusCode := NOT_FOUND; machine := machine_undefined |},
        logs [Cache_get (req_machineId request);
              Table_getMachine (req_machineId request)] h)).
Proof.
  split; [|split].
  - apply handleGetMachine_hit.
  - apply handleGetMachine_fill.
  - apply handleGetMachine_miss.
Qed.

(** C9.  When the cache holds an entry for the requested id, Start decides
    on that entry, whatever the table [t] holds.  If the cached status is
    not AWAITING_DROPOFF the result is BAD_REQUEST with the cached record
    and the cache read is the only call.  If it is AWAITING_DROPOFF the
    guard is passed: the device controller is called right after the cache
    read, before any call on the table, and the result is not
    BAD_REQUEST. *)
Theorem start_trusts_cache (h : this) (request : RequestModel)
    (c : MachineStateDocument) (t : T) :
  cache_get (cache h) (req_machineId request) = Some c →
  (status c ≠ AWAITING_DROPOFF →
     handleStartMachine request (with_table t h)
     = (Returned {| statusCode := BAD_REQUEST; machine := machine_doc c |},
        logs [Cache_get (req_machineId request)] (with_table t h)))
  ∧ (status c = AWAITING_DROPOFF →
     ∃ r rest,
       (handleStartMachine request (with_table t h)).1 = Returned r
       ∧ statusCode r ≠ BAD_REQUEST
       ∧ calls (handleStartMachine request (with_table t h)).2
         = calls h ++ Cache_get (req_machineId request)
                   :: Smc_startCycle (machineId c) :: rest).
Proof.
  intros Hc.
  assert (resolved (with_table t h) (req_machineId request) = Some c) as Hr.
  { unfold resolved, with_table. simpl. by rewrite Hc. }
  assert (resolve_calls (with_table t h) (req_machineId request)
          = [Cache_get (req_machineId request)]) as Hcalls.
  { unfold resolve_calls, with_table. simpl. by rewrite Hc. }
  split.
  - intros Hst. rewrite (handleStartMachine_rejected _ request c Hr Hst).
    by rewrite Hcalls.
  - intros Hst.
    destruct (startCycle (smc (with_table t h)) (machineId c)) as [ok d] eqn:Esmc.
    rewrite (handleStartMachine_started _ request c ok d Hr Hst Esmc), Hcalls.
    destruct (getMachine (updateMachineStatus _ _ _) _) as [u|]; simpl;
      eexists _, _; (split; [done|]); (split; [by destruct ok|]); done.
Qed.

(** C7.  Reserve returns NOT_FOUND, with no machine, in two cases and in
    no other.  When no machine listed at the location is AVAILABLE, the
    listing is the only call and nothing is written.  When the record of
    the selected machine cannot be read back after the two writes, the
    result is a returned NOT_FOUND (nothing is thrown) and the cache is
    not written. *)
Theorem reserve_not_found (h : this) (request : RequestModel) :
  (Forall (fun m => status m ≠ AVAILABLE)
          (listMachinesAtLocation (table h) (req_locationId request)) →
   handleRequestMachine request h
   = (Returned {| statusCode := NOT_FOUND; machine := machine_undefined |},
      logs [Table_listMachinesAtLocation (req_locationId request)] h))
  ∧ (∀ a, firstAvailable h (req_locationId request) = Some a →
          getMachine (reserved (table h) (machineId a) (req_jobId request))
                     (machineId a) = None →
          handleRequestMachine request h
          = (Returned {| statusCode := NOT_FOUND; machine := machine_undefined |},
             {| cache := cache h;
                table := reserved (table h) (machineId a) (req_jobId request);
                idp := idp h; smc := smc h;
                calls := calls h ++
                  [Table_listMachinesAtLocation (req_locationId request);
                   Table_updateMachineStatus (machineId a) AWAITING_DROPOFF;
                   Table_updateMachineJobId (machineId a) (req_jobId request);
                   Table_getMachine (machineId a)] |}))
  ∧ (∀ r, (handleRequestMachine request h).1 = Returned r →
          statusCode r = NOT_FOUND →
          machine r = machine_undefined
          ∧ (Forall (fun m => status m ≠ AVAILABLE)
                    (listMachinesAtLocation (table h) (req_locationId request))
             ∨ ∃ a, firstAvailable h (req_locationId request) = Some a
                    ∧ getMachine (reserved (table h) (machineId a) (req_jobId request))
                                 (machineId a) = None)).
Proof.
  split; [|split].
  - intros Hnone. apply firstAvailable_None in Hnone.
    by apply handleRequestMachine_none.
  - intros a Ha Hre. by rewrite (handleRequestMachine_some h request a Ha), Hre.
  - intros r. rewrite <- firstAvailable_None.
    destruct (firstAvailable h (req_locationId request)) as [a|] eqn:Ea.
    + rewrite (handleRequestMachine_some h request a Ea).
      destruct (getMachine _ _) eqn:E; simpl; intros [= <-]; simpl; [done|].
      intros _. split; [done|]. right. by exists a.
    + rewrite (handleRequestMachine_none h request Ea). simpl.
      intros [= <-] _. split; [done|by left].
Qed.

(** C3.  With an empty token, or one the identity provider does not
    accept, [handle] throws the error that carries UNAUTHORIZED and
    "Invalid token" instead of returning a response, whatever the method
    and the path; the only call made is the validation of a non-empty
    token, so table and cache are not written. *)
Theorem invalid_token_throws (h : this) (request : RequestModel) :
  token request = "" ∨ validateToken (idp h) (token request) = false →
  handle request h
  = (Thrown (Error_json UNAUTHORIZED "Invalid token"),
     logs (if String.eqb (token request) "" then []
           else [Idp_validateToken (token request)]) h).
Proof.
  intros Hbad. unfold handle, bind. by rewrite checkToken_invalid.
Qed.

Lemma handleGetMachine_by_id (h : this) (g g' : RequestModel) :
  req_machineId g = req_machineId g' →
  handleGetMachine g h = handleGetMachine g' h.
Proof. intros E. unfold handleGetMachine. by rewrite E. Qed.

Lemma handleStartMachine_by_id (h : this) (g g' : RequestModel) :
  req_machineId g = req_machineId g' →
  handleStartMachine g h = handleStartMachine g' h.
Proof. intros E. unfold handleStartMachine. by rewrite E. Qed.

(** C8.  With a valid token, after the validation call, [handle] runs
    Reserve on POST /machine/request, Get on GET /machine/{id} and Start on
    POST /machine/{id}/start, with {id} a non-empty run of letters, digits
    and hyphens.  Get and Start run for the id matched in the path: the
    outcome is that of the operation on any request [g] whose [machineId] is
    that id.  A request of none of the three shapes gets
    INTERNAL_SERVER_ERROR with machine null, and no further call is made. *)
Theorem handle_routes (h : this) (request : RequestModel) :
  token request ≠ "" →
  validateToken (idp h) (token request) = true →
  (method request = "POST" → path request = "/machine/request" →
     handle request h
     = handleRequestMachine request (logs [Idp_validateToken (token request)] h))
  ∧ (∀ id g, method request = "GET" → valid_id id →
             path request = "/machine/" +:+ id →
             req_machineId g = id →
             handle request h
             = handleGetMachine g (logs [Idp_validateToken (token request)] h))
  ∧ (∀ id g, method request = "POST" → valid_id id →
             path request = "/machine/" +:+ id +:+ "/start" →
             req_machineId g = id →
             handle request h
             = handleStartMachine g (logs [Idp_validateToken (token request)] h))
  ∧ (¬ (method request = "POST" ∧ path request = "/machine/request") →
     ¬ (method request = "GET"
        ∧ ∃ id, valid_id id ∧ path request = "/machine/" +:+ id) →
     ¬ (method request = "POST"
        ∧ ∃ id, valid_id id ∧ path request = "/machine/" +:+ id +:+ "/start") →
     handle request h
     = (Returned {| statusCode := INTERNAL_SERVER_ERROR; machine := machine_null |},
        logs [Idp_validateToken (token request)] h)).
Proof.
  intros Hne Hv.
  assert (∀ k : unit → M MachineResponseModel,
            bind (checkToken (token request)) k h
            = k () (logs [Idp_validateToken (token request)] h)) as Hrun.
  { intros k. unfold bind. by rewrite checkToken_valid. }
  unfold handle. rewrite Hrun. clear Hrun. repeat split.
  - intros -> ->. done.
  - intros id g Hm Hid Hp Hg.
    assert (getMachineMatch (path request) = Some id) as ->
      by by apply getMachineMatch_Some.
    rewrite Hm. simpl. by apply handleGetMachine_by_id.
  - intros id g Hm Hid Hp Hg.
    assert (startMachineMatch (path request) = Some id) as Hs
      by by apply startMachineMatch_Some.
    rewrite Hm, Hs. simpl.
    destruct (String.eqb (path request) "/machine/request") eqn:E.
    { apply String.eqb_eq in E. rewrite E in Hs. discriminate. }
    destruct (getMachineMatch (path request)); by apply handleStartMachine_by_id.
  - intros H1 H2 H3.
    destruct (String.eqb (method request) "POST") eqn:Epost;
      destruct (String.eqb (path request) "/machine/request") eqn:Ereq; simpl.
    + apply String.eqb_eq in Epost, Ereq. by destruct H1.
    + apply String.eqb_eq in Epost.
      destruct (startMachineMatch (path request)) as [id|] eqn:Es.
      { apply startMachineMatch_Some in Es. destruct H3. split; [done|by exists id]. }
      rewrite Epost. simpl. by destruct (getMachineMatch (path request)).
    + destruct (String.eqb (method request) "GET") eqn:Eget;
        destruct (getMachineMatch (path request)) as [id|] eqn:Eg; try done.
      apply String.eqb_eq in Eget. apply getMachineMatch_Some in Eg.
      destruct H2. split; [done|by exists id].
    + destruct (String.eqb (method request) "GET") eqn:Eget;
        destruct (getMachineMatch (path request)) as [id|] eqn:Eg; try done.
      apply String.eqb_eq in Eget. apply getMachineMatch_Some in Eg.
      destruct H2. split; [done|by exists id].
Qed.

(** *** Statements that rest on the contracts of table and cache *)

Section WithLaws.
Context `{!MachineStateTableLaws T, !DataCacheLaws C}.

Lemma resolved_keyed (h : this) (id : string) (m : MachineStateDocument) :
  cache_keyed (cache h) → resolved h id = Some m → machineId m = id.
Proof.
  unfold resolved. intros Hk Hr.
  destruct (cache_get (cache h) id) as [c|] eqn:E.
  - injection Hr as <-. by apply Hk.
  - by eapply getMachine_machineId.
Qed.

Lemma getMachine_reserved (t : T) (id job id' : string) :
  getMachine (reserved t id job) id'
  = if decide (id = id')
    then set_jobId job <$> (set_status AWAITING_DROPOFF <$> getMachine t id')
    else getMachine t id'.
Proof.
  unfold reserved.
  rewrite getMachine_updateMachineJobId, getMachine_updateMachineStatus.
  by case_decide.
Qed.

Lemma getMachine_updated_status (t : T) (id : string) (st : MachineStatus)
    (u : MachineStateDocument) :
  getMachine (updateMachineStatus t id st) id = Some u →
  status u = st ∧ machineId u = id.
Proof.
  intros E. split; [|by eapply getMachine_machineId].
  rewrite getMachine_updateMachineStatus, decide_True in E by done.
  destruct (getMachine t id); simpl in E; [|done]. by injection E as <-.
Qed.

Lemma cache_put_keyed (c : C) (u : MachineStateDocument) :
  cache_keyed c → cache_keyed (cache_put c (machineId u) u).
Proof.
  intros Hk k m. rewrite cache_get_put. case_decide.
  - by intros [= <-].
  - apply Hk.
Qed.

(** C1.  Start on a machine resolved in AWAITING_DROPOFF whose
    [startCycle] throws: the table is the old one with the status of
    that machine set to ERROR, so its record there is not in
    AWAITING_DROPOFF.  If the record is read back it has status ERROR,
    it is the cache entry of that machine, and the result is
    HARDWARE_ERROR with it; if it is not, the result is NOT_FOUND with
    no machine. *)
Theorem start_device_failure (h : this) (request : RequestModel)
    (m : MachineStateDocument) (d : S) :
  resolved h (req_machineId request) = Some m →
  status m = AWAITING_DROPOFF →
  startCycle (smc h) (machineId m) = (false, d) →
  table (handleStartMachine request h).2
    = updateMachineStatus (table h) (machineId m) ERROR
  ∧ status <$> getMachine (table (handleStartMachine request h).2) (machineId m)
    ≠ Some AWAITING_DROPOFF
  ∧ (∀ e, getMachine (table (handleStartMachine request h).2) (machineId m) = Some e →
          status e = ERROR
          ∧ cache_get (cache (handleStartMachine request h).2) (machineId m) = Some e
          ∧ (handleStartMachine request h).1
            = Returned {| statusCode := HARDWARE_ERROR; machine := machine_doc e |})
  ∧ (getMachine (table (handleStartMachine request h).2) (machineId m) = None →
     (handleStartMachine request h).1
     = Returned {| statusCode := NOT_FOUND; machine := machine_undefined |}).
Proof.
  intros Hr Hst Hsmc.
  rewrite (handleStartMachine_started h request m false d Hr Hst Hsmc).
  destruct (getMachine (updateMachineStatus (table h) (machineId m) ERROR)
                       (machineId m)) as [u|] eqn:E; simpl.
  - destruct (getMachine_updated_status _ _ _ _ E) as [Hu Hid].
    rewrite E. split; [done|]. split; [simpl; by rewrite Hu|]. split; [|done].
    intros e [= <-]. split; [done|]. split; [|done].
    rewrite cache_get_put. by rewrite decide_True.
  - rewrite E. by repeat (split; [done|]).
Qed.

(** C4.  Start on a machine resolved in AWAITING_DROPOFF whose
    [startCycle] returns: the table is the old one with the status of
    that machine set to RUNNING.  If the record is read back it has
    status RUNNING, it is the cache entry of that machine, and the
    result is OK with it; if it is not, the result is NOT_FOUND with no
    machine. *)
Theorem start_device_success (h : this) (request : RequestModel)
    (m : MachineStateDocument) (d : S) :
  resolved h (req_machineId request) = Some m →
  status m = AWAITING_DROPOFF →
  startCycle (smc h) (machineId m) = (true, d) →
  table (handleStartMachine request h).2
    = updateMachineStatus (table h) (machineId m) RUNNING
  ∧ (∀ u, getMachine (table (handleStartMachine request h).2) (machineId m) = Some u →
          status u = RUNNING
          ∧ cache_get (cache (handleStartMachine request h).2) (machineId m) = Some u
          ∧ (handleStartMachine request h).1
            = Returned {| statusCode := OK; machine := machine_doc u |})
  ∧ (getMachine (table (handleStartMachine request h).2) (machineId m) = None →
     (handleStartMachine request h).1
     = Returned {| statusCode := NOT_FOUND; machine := machine_undefined |}).
Proof.
  intros Hr Hst Hsmc.
  rewrite (handleStartMachine_started h request m true d Hr Hst Hsmc).
  destruct (getMachine (updateMachineStatus (table h) (machineId m) RUNNING)
                       (machineId m)) as [u|] eqn:E; simpl.
  - destruct (getMachine_updated_status _ _ _ _ E) as [Hu Hid].
    rewrite E. split; [done|]. split; [|done].
    intros u' [= <-]. split; [done|]. split; [|done].
    rewrite cache_get_put. by rewrite decide_True.
  - rewrite E. by repeat (split; [done|]).
Qed.

(** C2.  Reserve at a location whose listing is [pre ++ a :: post], with
    no machine of [pre] AVAILABLE and [a] AVAILABLE: [a] is the machine
    selected, and the table is the old one after the status write and the
    job write to [a].  If the record of [a] is then read back, it has status
    AWAITING_DROPOFF and the requested job, it is the cache entry of that
    machine, and the result is OK with it; if it is not read back, the
    result is NOT_FOUND with no machine. *)
Theorem reserve_first_available (h : this) (request : RequestModel)
    (pre post : list MachineStateDocument) (a : MachineStateDocument) :
  listMachinesAtLocation (table h) (req_locationId request) = pre ++ a :: post →
  Forall (fun m => status m ≠ AVAILABLE) pre →
  status a = AVAILABLE →
  firstAvailable h (req_locationId request) = Some a
  ∧ table (handleRequestMachine request h).2
    = reserved (table h) (machineId a) (req_jobId request)
  ∧ (∀ u, getMachine (table (handleRequestMachine request h).2) (machineId a) = Some u →
          status u = AWAITING_DROPOFF
          ∧ jobId u = Some (req_jobId request)
          ∧ cache_get (cache (handleRequestMachine request h).2) (machineId a) = Some u
          ∧ (handleRequestMachine request h).1
            = Returned {| statusCode := OK; machine := machine_doc u |})
  ∧ (getMachine (table (handleRequestMachine request h).2) (machineId a) = None →
     (handleRequestMachine request h).1
     = Returned {| statusCode := NOT_FOUND; machine := machine_undefined |}).
Proof.
  intros Hl Hpre Ha.
  pose proof (firstAvailable_split h _ pre post a Hl Hpre Ha) as Hfirst.
  split; [done|]. rewrite (handleRequestMachine_some h request a Hfirst).
  destruct (getMachine (reserved (table h) (machineId a) (req_jobId request))
                       (machineId a)) as [u|] eqn:E; simpl.
  - pose proof (getMachine_machineId _ _ _ E) as Hid.
    rewrite E. split; [done|]. split; [|done].
    intros u' [= <-].
    rewrite getMachine_reserved, decide_True in E by done.
    destruct (getMachine (table h) (machineId a)) as [u0|]; simpl in E; [|done].
    injection E as <-. simpl. repeat (split; [done|]). split; [|done].
    rewrite cache_get_put. by rewrite decide_True.
  - rewrite E. by repeat (split; [done|]).
Qed.

(** C10.  A machine other than the target of the call keeps its table
    record and its cache entry: for Reserve the target is the selected
    machine (with none selected, every machine keeps both), for Get and
    Start it is the requested machine.  For Start the cache is taken to
    hold every entry under the id of its machine, as the handler's own
    writes leave it. *)
Theorem other_machines_untouched (h : this) (request : RequestModel)
    (id' : string) :
  (∀ a, firstAvailable h (req_locationId request) = Some a →
        id' ≠ machineId a →
        same_machine id' h (handleRequestMachine request h).2)
  ∧ (firstAvailable h (req_locationId request) = None →
     same_machine id' h (handleRequestMachine request h).2)
  ∧ (id' ≠ req_machineId request →
     same_machine id' h (handleGetMachine request h).2)
  ∧ (cache_keyed (cache h) →
     id' ≠ req_machineId request →
     same_machine id' h (handleStartMachine request h).2).
Proof.
  split; [|split; [|split]].
  - intros a Ha Hne.
    rewrite (handleRequestMachine_some h request a Ha).
    destruct (getMachine _ _) as [u|] eqn:Eu; split; simpl;
      try (rewrite getMachine_reserved, decide_False; done); [|done].
    rewrite cache_get_put, decide_False; [done|].
    apply getMachine_machineId in Eu. congruence.
  - intros Hnone. rewrite (handleRequestMachine_none h request Hnone).
    apply same_machine_logs.
  - intros Hne.
    destruct (cache_get (cache h) (req_machineId request)) as [c|] eqn:Ec.
    { rewrite (handleGetMachine_hit h request c Ec). apply same_machine_logs. }
    destruct (getMachine (table h) (req_machineId request)) as [m|] eqn:Em.
    + rewrite (handleGetMachine_fill h request m Ec Em). split; simpl; [done|].
      rewrite cache_get_put, decide_False; [done|].
      apply getMachine_machineId in Em. congruence.
    + rewrite (handleGetMachine_miss h request Ec Em). apply same_machine_logs.
  - intros Hk Hne.
    destruct (resolved h (req_machineId request)) as [m|] eqn:Er.
    + pose proof (resolved_keyed h _ m Hk Er) as Hid.
      destruct (decide (status m = AWAITING_DROPOFF)) as [Hst|Hst].
      * destruct (startCycle (smc h) (machineId m)) as [ok d] eqn:Esmc.
        rewrite (handleStartMachine_started h request m ok d Er Hst Esmc).
        destruct (getMachine (updateMachineStatus _ _ _) _) as [u|] eqn:Eu;
          split; simpl;
          try (rewrite getMachine_updateMachineStatus, decide_False;
               [done|congruence]); [|done].
        rewrite cache_get_put, decide_False; [done|].
        apply getMachine_machineId in Eu. congruence.
      * rewrite (handleStartMachine_rejected h request m Er Hst).
        apply same_machine_logs.
    + rewrite (handleStartMachine_unresolved h request Er).
      apply same_machine_logs.
Qed.

(** The handler's own writes keep the cache keyed by machine id. *)
Lemma handleRequestMachine_keyed (h : this) (request : RequestModel) :
  cache_keyed (cache h) → cache_keyed (cache (handleRequestMachine request h).2).
Proof.
  intros Hk.
  destruct (firstAvailable h (req_locationId request)) as [a|] eqn:Ea.
  - rewrite (handleRequestMachine_some h request a Ea).
    destruct (getMachine _ _) as [u|]; simpl; [|done].
    by apply cache_put_keyed.
  - by rewrite (handleRequestMachine_none h request Ea).
Qed.

Lemma handleGetMachine_keyed (h : this) (request : RequestModel) :
  cache_keyed (cache h) → cache_keyed (cache (handleGetMachine request h).2).
Proof.
  intros Hk.
  destruct (cache_get (cache h) (req_machineId request)) as [c|] eqn:Ec.
  { by rewrite (handleGetMachine_hit h request c Ec). }
  destruct (getMachine (table h) (req_machineId request)) as [m|] eqn:Em.
  - rewrite (handleGetMachine_fill h request m Ec Em). simpl.
    by apply cache_put_keyed.
  - by rewrite (handleGetMachine_miss h request Ec Em).
Qed.

Lemma handleStartMachine_keyed (h : this) (request : RequestModel) :
  cache_keyed (cache h) → cache_keyed (cache (handleStartMachine request h).2).
Proof.
  intros Hk.
  destruct (resolved h (req_machineId request)) as [m|] eqn:Er.
  - destruct (decide (status m = AWAITING_DROPOFF)) as [Hst|Hst].
    + destruct (startCycle (smc h) (machineId m)) as [ok d] eqn:Esmc.
      rewrite (handleStartMachine_started h request m ok d Er Hst Esmc).
      destruct (getMachine (updateMachineStatus _ _ _) _) as [u|]; simpl; [|done].
      by apply cache_put_keyed.
    + by rewrite (handleStartMachine_rejected h request m Er Hst).
  - by rewrite (handleStartMachine_unresolved h request Er).
Qed.

Lemma handle_keyed (h : this) (request : RequestModel) :
  cache_keyed (cache h) → cache_keyed (cache (handle request h).2).
Proof.
  intros Hk. unfold handle, bind.
  destruct (decide (token request = "")) as [Ht|Ht].
  { rewrite checkToken_invalid by by left. done. }
  destruct (validateToken (idp h) (token request)) eqn:Ev.
  - rewrite checkToken_valid by done.
    destruct (_ && _); [by apply handleRequestMachine_keyed|].
    destruct (String.eqb (method request) "GET"), (getMachineMatch (path request));
      try (by apply handleGetMachine_keyed);
      destruct (String.eqb (method request) "POST"),
               (startMachineMatch (path request));
      try done; by apply handleStartMachine_keyed.
  - rewrite checkToken_invalid by by right. done.
Qed.

End WithLaws.

End Properties.


(** ** Further properties of the route patterns *)

Lemma all_id_chars_app (a b : string) :
  all_id_chars (a +:+ b) = all_id_chars a && all_id_chars b.
Proof.
  induction a as [|c a IH]; [done|].
  rewrite append_String. simpl. rewrite IH. by rewrite andb_assoc.
Qed.

Lemma machine_path_inj (a b : string) :
  "/machine/" +:+ a = "/machine/" +:+ b → a = b.
Proof.
  intros E. apply strip_prefix_Some in E.
  assert (strip_prefix "/machine/" ("/machine/" +:+ a) = Some a) as Ha
    by by apply strip_prefix_Some.
  rewrite Ha in E.
  congruence.
Qed.

Lemma start_path_not_machine_path (id id' : string) :
  all_id_chars id = true → "/machine/" +:+ id ≠ "/machine/" +:+ id' +:+ "/start".
Proof.
  intros Hid E. apply machine_path_inj in E. subst id.
  rewrite all_id_chars_app in Hid. apply andb_true_iff in Hid as [_ Hid].
  discriminate Hid.
Qed.

(** X15.  Building a path from an id and matching it gives the id back, for
    each of the two patterns; and neither pattern matches a path built for
    the other, so no path is both a Get path and a Start path. *)
Theorem route_paths_round_trip (id : string) :
  valid_id id →
  getMachineMatch ("/machine/" +:+ id) = Some id
  ∧ startMachineMatch ("/machine/" +:+ id +:+ "/start") = Some id
  ∧ startMachineMatch ("/machine/" +:+ id) = None
  ∧ getMachineMatch ("/machine/" +:+ id +:+ "/start") = None.
Proof.
  intros Hid. split; [by apply getMachineMatch_Some|].
  split; [by apply startMachineMatch_Some|]. split.
  - destruct (startMachineMatch ("/machine/" +:+ id)) as [id'|] eqn:E; [|done].
    apply startMachineMatch_Some in E as [_ E].
    destruct Hid as [_ Hid]. by apply start_path_not_machine_path in E.
  - destruct (getMachineMatch ("/machine/" +:+ id +:+ "/start")) as [id'|] eqn:E; [|done].
    apply getMachineMatch_Some in E as [[_ Hid'] E]. symmetry in E.
    by apply start_path_not_machine_path in E.
Qed.

Lemma MapCache_empty_coherent (t : ListTable) (i : TokenList) (d : BrokenList)
    (l : list Call) :
  coherent {| cache := (∅ : MapCache); table := t; idp := i; smc := d; calls := l |}.
Proof.
  intros k m. simpl. change (cache_get (∅ : MapCache) k) with ((∅ : MapCache) !! k).
  by rewrite lookup_empty.
Qed.

(** ** Further properties of the handler *)

Section Further.
Context {C T I S : Type}.
Context `{!DataCache C, !MachineStateTable T,
          !IdentityProviderClient I, !SmartMachineClient S}.

Local Abbreviation this := (ApiHandler C T I S).

(** *** Reasoning by the paths of each method *)

Lemma handleRequestMachine_paths (P : Result MachineResponseModel * this → Prop)
    (h : this) (request : RequestModel) :
  (firstAvailable h (req_locationId request) = None →
   P (Returned {| statusCode := NOT_FOUND; machine := machine_undefined |},
      logs [Table_listMachinesAtLocation (req_locationId request)] h)) →
  (∀ a u,
     firstAvailable h (req_locationId request) = Some a →
     getMachine (reserved (table h) (machineId a) (req_jobId request)) (machineId a)
       = Some u →
     P (Returned {| statusCode := OK; machine := machine_doc u |},
        {| cache := cache_put (cache h) (machineId u) u;
           table := reserved (table h) (machineId a) (req_jobId request);
           idp := idp h; smc := smc h;
           calls := calls h ++
             [Table_listMachinesAtLocation (req_locationId request);
              Table_updateMachineStatus (machineId a) AWAITING_DROPOFF;
              Table_updateMachineJobId (machineId a) (req_jobId request);
              Table_getMachine (machineId a);
              Cache_put (machineId u) u] |})) →
  (∀ a,
     firstAvailable h (req_locationId request) = Some a →
     getMachine (reserved (table h) (machineId a) (req_jobId request)) (machineId a)
       = None →
     P (Returned {| statusCode := NOT_FOUND; machine := machine_undefined |},
        {| cache := cache h;
           table := reserved (table h) (machineId a) (req_jobId request);
           idp := idp h; smc := smc h;
           calls := calls h ++
             [Table_listMachinesAtLocation (req_locationId request);
              Table_updateMachineStatus (machineId a) AWAITING_DROPOFF;
              Table_updateMachineJobId (machineId a) (req_jobId request);
              Table_getMachine (machineId a)] |})) →
  P (handleRequestMachine request h).
Proof.
  intros Hnone Hok Hgone.
  destruct (firstAvailable h (req_locationId request)) as [a|] eqn:Ea.
  - rewrite (handleRequestMachine_some h request a Ea).
    destruct (getMachine _ _) as [u|] eqn:Eu; [by apply Hok|by apply Hgone].
  - rewrite (handleRequestMachine_none h request Ea). by apply Hnone.
Qed.

Lemma handleGetMachine_paths (P : Result MachineResponseModel * this → Prop)
    (h : this) (request : RequestModel) :
  (∀ m, cache_get (cache h) (req_machineId request) = Some m →
        P (Returned {| statusCode := OK; machine := machine_doc m |},
           logs [Cache_get (req_machineId request)] h)) →
  (∀ m, cache_get (cache h) (req_machineId request) = None →
        getMachine (table h) (req_machineId request) = Some m →
        P (Returned {| statusCode := OK; machine := machine_doc m |},
           {| cache := cache_put (cache h) (machineId m) m;
              table := table h; idp := idp h; smc := smc h;
              calls := calls h ++ [Cache_get (req_machineId request);
                                   Table_getMachine (req_machineId request);
                                   Cache_put (machineId m) m] |})) →
  (cache_get (cache h) (req_machineId request) = None →
   getMachine (table h) (req_machineId request) = None →
   P (Returned {| statusCode := NOT_FOUND; machine := machine_undefined |},
      logs [Cache_get (req_machineId request);
            Table_getMachine (req_machineId request)] h)) →
  P (handleGetMachine request h).
Proof.
  intros Hhit Hfill Hmiss.
  destruct (cache_get (cache h) (req_machineId request)) as [c|] eqn:Ec.
  { rewrite (handleGetMachine_hit h request c Ec). by apply Hhit. }
  destruct (getMachine (table h) (req_machineId request)) as [m|] eqn:Em.
  - rewrite (handleGetMachine_fill h request m Ec Em). by apply Hfill.
  - rewrite (handleGetMachine_miss h request Ec Em). by apply Hmiss.
Qed.

Lemma handleStartMachine_paths (P : Result MachineResponseModel * this → Prop)
    (h : this) (request : RequestModel) :
  (resolved h (req_machineId request) = None →
   P (Returned {| statusCode := NOT_FOUND; machine := machine_undefined |},
      logs (resolve_calls h (req_machineId request)) h)) →
  (∀ m, resolved h (req_machineId request) = Some m →
        status m ≠ AWAITING_DROPOFF →
        P (Returned {| statusCode := BAD_REQUEST; machine := machine_doc m |},
           logs (resolve_calls h (req_machineId request)) h)) →
  (∀ m ok d u,
     resolved h (req_machineId request) = Some m →
     status m = AWAITING_DROPOFF →
     startCycle (smc h) (machineId m) = (ok, d) →
     getMachine (updateMachineStatus (table h) (machineId m)
                   (if ok then RUNNING else ERROR)) (machineId m) = Some u →
     P (Returned {| statusCode := if ok then OK else HARDWARE_ERROR;
                    machine := machine_doc u |},
        {| cache := cache_put (cache h) (machineId u) u;
           table := updateMachineStatus (table h) (machineId m)
                      (if ok then RUNNING else ERROR);
           idp := idp h; smc := d;
           calls := calls h ++ resolve_calls h (req_machineId request) ++
             [Smc_startCycle (machineId m);
              Table_updateMachineStatus (machineId m) (if ok then RUNNING else ERROR);
              Table_getMachine (machineId m);
              Cache_put (machineId u) u] |})) →
  (∀ m ok d,
     resolved h (req_machineId request) = Some m →
     status m = AWAITING_DROPOFF →
     startCycle (smc h) (machineId m) = (ok, d) →
     getMachine (updateMachineStatus (table h) (machineId m)
                   (if ok then RUNNING else ERROR)) (machineId m) = None →
     P (Returned {| statusCode := NOT_FOUND; machine := machine_undefined |},
        {| cache := cache h;
           table := updateMachineStatus (table h) (machineId m)
                      (if ok then RUNNING else ERROR);
           idp := idp h; smc := d;
           calls := calls h ++ resolve_calls h (req_machineId request) ++
             [Smc_startCycle (machineId m);
              Table_updateMachineStatus (machineId m) (if ok then RUNNING else ERROR);
              Table_getMachine (machineId m)] |})) →
  P (handleStartMachine request h).
Proof.
  intros Hnone Hrej Hput Hgone.
  destruct (resolved h (req_machineId request)) as [m|] eqn:Er.
  - destruct (decide (status m = AWAITING_DROPOFF)) as [Hst|Hst].
    + destruct (startCycle (smc h) (machineId m)) as [ok d] eqn:Esmc.
      rewrite (handleStartMachine_started h request m ok d Er Hst Esmc).
      destruct (getMachine (updateMachineStatus _ _ _) _) as [u|] eqn:Eu.
      * by apply (Hput m ok d u).
      * by apply (Hgone m ok d).
    + rewrite (handleStartMachine_rejected h request m Er Hst). by apply Hrej.
  - rewrite (handleStartMachine_unresolved h request Er). by apply Hnone.
Qed.

Lemma handle_paths (P : Result MachineResponseModel * this → Prop)
    (h : this) (request : RequestModel) :
  (token request = "" ∨ validateToken (idp h) (token request) = false →
   P (Thrown (Error_json UNAUTHORIZED "Invalid token"),
      logs (if String.eqb (token request) "" then []
            else [Idp_validateToken (token request)]) h)) →
  (authorized h request →
   method request = "POST" → path request = "/machine/request" →
   P (handleRequestMachine request (checked request h))) →
  (∀ id, authorized h request →
         method request = "GET" → getMachineMatch (path request) = Some id →
         P (handleGetMachine (with_machineId request id) (checked request h))) →
  (∀ id, authorized h request →
         method request = "POST" → startMachineMatch (path request) = Some id →
         P (handleStartMachine (with_machineId request id) (checked request h))) →
  (authorized h request →
   P (Returned {| statusCode := INTERNAL_SERVER_ERROR; machine := machine_null |},
      checked request h)) →
  P (handle request h).
Proof.
  intros Hbad Hreserve Hget Hstart Hnone. unfold handle, bind.
  destruct (decide (token request = "")) as [Ht|Ht].
  { rewrite checkToken_invalid by by left. apply Hbad. by left. }
  destruct (validateToken (idp h) (token request)) eqn:Ev.
  2:{ rewrite checkToken_invalid by by right. apply Hbad. by right. }
  rewrite checkToken_valid by done.
  assert (authorized h request) as Hauth by done.
  fold (checked request h).
  destruct (String.eqb (method request) "POST") eqn:Epost;
    destruct (String.eqb (path request) "/machine/request") eqn:Ereq; simpl.
  - apply String.eqb_eq in Epost, Ereq. by apply Hreserve.
  - apply String.eqb_eq in Epost. rewrite Epost. simpl.
    destruct (getMachineMatch (path request));
      (destruct (startMachineMatch (path request)) as [id|] eqn:Es;
       [by apply Hstart|by apply Hnone]).
  - destruct (String.eqb (method request) "GET") eqn:Eget;
      destruct (getMachineMatch (path request)) as [id|] eqn:Eg;
      try (destruct (startMachineMatch (path request)); by apply Hnone).
    apply String.eqb_eq in Eget. by apply Hget.
  - destruct (String.eqb (method request) "GET") eqn:Eget;
      destruct (getMachineMatch (path request)) as [id|] eqn:Eg;
      try (destruct (startMachineMatch (path request)); by apply Hnone).
    apply String.eqb_eq in Eget. by apply Hget.
Qed.

(** *** What every path has in common *)

Lemma handleRequestMachine_returns (h : this) (request : RequestModel) :
  ∃ r, (handleRequestMachine request h).1 = Returned r ∧ envelope_shape r = true.
Proof. apply handleRequestMachine_paths; intros; by eexists. Qed.

Lemma handleGetMachine_returns (h : this) (request : RequestModel) :
  ∃ r, (handleGetMachine request h).1 = Returned r ∧ envelope_shape r = true.
Proof. apply handleGetMachine_paths; intros; by eexists. Qed.

Lemma handleStartMachine_returns (h : this) (request : RequestModel) :
  ∃ r, (handleStartMachine request h).1 = Returned r ∧ envelope_shape r = true.
Proof.
  apply handleStartMachine_paths; intros; try by eexists.
  eexists. split; [done|]. by destruct ok.
Qed.

Lemma handleRequestMachine_calls (h : this) (request : RequestModel) :
  ∃ l, calls (handleRequestMachine request h).2 = calls h ++ l
       ∧ Forall (fun c => is_startCycle c = false) l.
Proof.
  apply handleRequestMachine_paths; intros; eexists; (split; [done|]);
    repeat constructor.
Qed.

Lemma handleGetMachine_calls (h : this) (request : RequestModel) :
  ∃ l, calls (handleGetMachine request h).2 = calls h ++ l
       ∧ Forall (fun c => is_table_write c = false ∧ is_startCycle c = false) l.
Proof.
  apply handleGetMachine_paths; intros; eexists; (split; [done|]);
    repeat constructor.
Qed.

Lemma handleGetMachine_table (h : this) (request : RequestModel) :
  table (handleGetMachine request h).2 = table h
  ∧ smc (handleGetMachine request h).2 = smc h.
Proof. by apply handleGetMachine_paths. Qed.

Lemma handleStartMachine_calls (h : this) (request : RequestModel) :
  ∃ l, calls (handleStartMachine request h).2 = calls h ++ l
       ∧ length (List.filter is_startCycle l) ≤ 1
       ∧ ∀ id, In (Smc_startCycle id) l →
               ∃ m, resolved h (req_machineId request) = Some m
                    ∧ status m = AWAITING_DROPOFF
                    ∧ machineId m = id.
Proof.
  apply handleStartMachine_paths; unfold resolve_calls; intros; eexists;
    (split; [done|]);
    destruct (cache_get (cache h) (req_machineId request)); simpl;
    (split; [lia|]); intros id Hin;
    repeat (destruct Hin as [Hin|Hin]; try discriminate Hin);
    try done; injection Hin as <-; by eexists.
Qed.

(** *** Statements about [handle] as a whole *)

(** X1.  Start on a machine that neither the cache nor the table knows
    returns NOT_FOUND with no machine after the two reads; nothing is
    written and the device controller is not called. *)
Theorem start_unknown_machine (h : this) (request : RequestModel) :
  cache_get (cache h) (req_machineId request) = None →
  getMachine (table h) (req_machineId request) = None →
  handleStartMachine request h
  = (Returned {| statusCode := NOT_FOUND; machine := machine_undefined |},
     logs [Cache_get (req_machineId request);
           Table_getMachine (req_machineId request)] h).
Proof.
  intros Hc Ht.
  rewrite handleStartMachine_unresolved; unfold resolved, resolve_calls;
    by rewrite Hc.
Qed.

(** X2.  Once the token check has passed, [handle] returns a response for
    every request: nothing is thrown, a failure of the device controller
    included.  The response pairs OK, BAD_REQUEST and HARDWARE_ERROR with a
    machine, NOT_FOUND with undefined and INTERNAL_SERVER_ERROR with null;
    it never carries UNAUTHORIZED. *)
Theorem authorized_handle_returns (h : this) (request : RequestModel) :
  authorized h request →
  ∃ r, (handle request h).1 = Returned r ∧ envelope_shape r = true.
Proof.
  intros [Hne Hv]. apply handle_paths.
  - intros [Hbad|Hbad]; congruence.
  - intros. apply handleRequestMachine_returns.
  - intros. apply handleGetMachine_returns.
  - intros. apply handleStartMachine_returns.
  - intros. by eexists.
Qed.

(** X3.  The only thing [handle] ever throws is the UNAUTHORIZED error of
    the token check, and only for a token that is empty or refused; by then
    table, cache and device are as they were. *)
Theorem handle_throws_only_unauthorized (h : this) (request : RequestModel)
    (e : Exn) :
  (handle request h).1 = Thrown e →
  e = Error_json UNAUTHORIZED "Invalid token"
  ∧ (token request = "" ∨ validateToken (idp h) (token request) = false)
  ∧ same_store h (handle request h).2
  ∧ smc (handle request h).2 = smc h.
Proof.
  apply handle_paths.
  - intros Hbad [= <-]. done.
  - intros _ _ _ He.
    destruct (handleRequestMachine_returns (checked request h) request) as (r & Hr & _).
    congruence.
  - intros id _ _ _ He.
    destruct (handleGetMachine_returns (checked request h) (with_machineId request id))
      as (r & Hr & _).
    congruence.
  - intros id _ _ _ He.
    destruct (handleStartMachine_returns (checked request h) (with_machineId request id))
      as (r & Hr & _).
    congruence.
  - intros _ [=].
Qed.

(** X4.  A GET request never writes to the table and never reaches the
    device controller, whatever its path and token: the table and the
    device are as before, and no call made is a table write or a start of a
    cycle. *)
Theorem get_requests_leave_table (h : this) (request : RequestModel) :
  method request = "GET" →
  table (handle request h).2 = table h
  ∧ smc (handle request h).2 = smc h
  ∧ ∃ l, calls (handle request h).2 = calls h ++ l
         ∧ Forall (fun c => is_table_write c = false ∧ is_startCycle c = false) l.
Proof.
  intros Hm. apply handle_paths.
  - intros _. repeat (split; [done|]). eexists. split; [done|].
    destruct (String.eqb (token request) ""); repeat constructor.
  - intros _ Hpost. congruence.
  - intros id _ _ _.
    destruct (handleGetMachine_table (checked request h) (with_machineId request id))
      as [-> ->].
    repeat (split; [done|]).
    destruct (handleGetMachine_calls (checked request h) (with_machineId request id))
      as (l & -> & Hl).
    exists (Idp_validateToken (token request) :: l). split.
    + unfold checked, logs. simpl. by rewrite <- app_assoc.
    + by constructor.
  - intros id _ Hpost. congruence.
  - intros _. repeat (split; [done|]). eexists. split; [done|]. repeat constructor.
Qed.

(** X5.  In one call of [handle] the device controller is started at most
    once, and only for a POST on a start path whose machine was resolved
    (cache first, then table) in AWAITING_DROPOFF; the cycle started is that
    of the resolved record's machine. *)
Theorem device_started_only_past_guard (h : this) (request : RequestModel) :
  ∃ l, calls (handle request h).2 = calls h ++ l
       ∧ length (List.filter is_startCycle l) ≤ 1
       ∧ ∀ id, In (Smc_startCycle id) l →
               authorized h request
               ∧ method request = "POST"
               ∧ ∃ rid m, startMachineMatch (path request) = Some rid
                          ∧ resolved h rid = Some m
                          ∧ status m = AWAITING_DROPOFF
                          ∧ machineId m = id.
Proof.
  apply handle_paths.
  - intros _. eexists. split; [done|].
    destruct (String.eqb (token request) ""); simpl; (split; [lia|]);
      intros id Hin; repeat (destruct Hin as [Hin|Hin]; try discriminate Hin); done.
  - intros _ _ _.
    destruct (handleRequestMachine_calls (checked request h) request)
      as (l & -> & Hl).
    exists (Idp_validateToken (token request) :: l). split.
    { unfold checked, logs. simpl. by rewrite <- app_assoc. }
    simpl. split.
    + induction Hl as [|c l Hc _ IH]; simpl; [lia|]. by rewrite Hc.
    + intros id [Hin|Hin]; [discriminate Hin|].
      rewrite Forall_forall in Hl. apply list_elem_of_In, Hl in Hin. done.
  - intros rid _ _ _.
    destruct (handleGetMachine_calls (checked request h) (with_machineId request rid))
      as (l & -> & Hl).
    exists (Idp_validateToken (token request) :: l). split.
    { unfold checked, logs. simpl. by rewrite <- app_assoc. }
    simpl. split.
    + induction Hl as [|c l [_ Hc] _ IH]; simpl; [lia|]. by rewrite Hc.
    + intros id [Hin|Hin]; [discriminate Hin|].
      rewrite Forall_forall in Hl. apply list_elem_of_In, Hl in Hin.
      destruct Hin as [_ Hin]. done.
  - intros rid Hauth Hpost Hs.
    destruct (handleStartMachine_calls (checked request h) (with_machineId request rid))
      as (l & -> & Hone & Hl).
    exists (Idp_validateToken (token request) :: l). split.
    { unfold checked, logs. simpl. by rewrite <- app_assoc. }
    simpl. split; [done|].
    intros id [Hin|Hin]; [discriminate Hin|].
    destruct (Hl id Hin) as (m & Hr & Hst & Hid).
    repeat (split; [done|]). by exists rid, m.
  - intros _. eexists. split; [done|]. simpl. split; [lia|].
    intros id [Hin|[]]. discriminate Hin.
Qed.

(** X6.  Reserve does not look at the cache: over any other cache it gives
    the same response, leaves the same table and makes the same calls,
    none of them a cache read. *)
Theorem reserve_ignores_cache (h : this) (request : RequestModel) (c : C) :
  (handleRequestMachine request (with_cache c h)).1 = (handleRequestMachine request h).1
  ∧ table (handleRequestMachine request (with_cache c h)).2
    = table (handleRequestMachine request h).2
  ∧ ∃ l, calls (handleRequestMachine request (with_cache c h)).2 = calls h ++ l
         ∧ calls (handleRequestMachine request h).2 = calls h ++ l
         ∧ Forall (fun x => ∀ k, x ≠ Cache_get k) l.
Proof.
  destruct (firstAvailable h (req_locationId request)) as [a|] eqn:Ea.
  - rewrite (handleRequestMachine_some h request a Ea).
    rewrite (handleRequestMachine_some (with_cache c h) request a Ea). simpl.
    destruct (getMachine _ _) as [u|]; simpl; repeat (split; [done|]);
      eexists; repeat (split; [done|]); repeat constructor; done.
  - rewrite (handleRequestMachine_none h request Ea).
    rewrite (handleRequestMachine_none (with_cache c h) request Ea). simpl.
    repeat (split; [done|]).
    eexists; repeat (split; [done|]); repeat constructor; done.
Qed.

(** X7.  When every cache entry is the record the table holds under that
    key, Get answers with what the table holds: OK with the table's record
    for the requested id, or NOT_FOUND if the table has none. *)
Theorem get_returns_table_record (h : this) (request : RequestModel) :
  coherent h →
  (handleGetMachine request h).1
  = Returned match getMachine (table h) (req_machineId request) with
             | Some m => {| statusCode := OK; machine := machine_doc m |}
             | None => {| statusCode := NOT_FOUND; machine := machine_undefined |}
             end.
Proof.
  intros Hco. apply handleGetMachine_paths.
  - intros m Hc. by rewrite (Hco _ _ Hc).
  - by intros m _ ->.
  - by intros _ ->.
Qed.

(** X14.  With a valid token, a request is answered INTERNAL_SERVER_ERROR
    with machine null, and nothing but the token validation is called, when
    its method is neither GET nor POST (whatever the path); when it is a GET
    on /machine/ followed by anything that is not a non-empty run of
    letters, digits and hyphens; and when it is a POST on /machine/{id}
    itself, for an id other than "request". *)
Theorem unrouted_requests (h : this) (request : RequestModel) :
  authorized h request →
  (method request ≠ "GET" → method request ≠ "POST" →
     handle request h
     = (Returned {| statusCode := INTERNAL_SERVER_ERROR; machine := machine_null |},
        checked request h))
  ∧ (∀ s, method request = "GET" → path request = "/machine/" +:+ s →
          ¬ valid_id s →
          handle request h
          = (Returned {| statusCode := INTERNAL_SERVER_ERROR; machine := machine_null |},
             checked request h))
  ∧ (∀ id, method request = "POST" → path request = "/machine/" +:+ id →
           valid_id id → id ≠ "request" →
           handle request h
           = (Returned {| statusCode := INTERNAL_SERVER_ERROR; machine := machine_null |},
              checked request h)).
Proof.
  intros Hauth. split; [|split].
  - intros Hget Hpost. apply handle_paths; try done.
    destruct Hauth as [Hne Hv]. intros [?|?]; congruence.
  - intros s Hget Hp Hs. apply handle_paths; try done.
    + destruct Hauth as [Hne Hv]. intros [?|?]; congruence.
    + intros _ Hpost. congruence.
    + intros id _ _ Hm. apply getMachineMatch_Some in Hm as [Hid E].
      rewrite Hp in E. apply machine_path_inj in E. by subst.
    + intros id _ Hpost. congruence.
  - intros id Hpost Hp Hid Hreq. apply handle_paths; try done.
    + destruct Hauth as [Hne Hv]. intros [?|?]; congruence.
    + intros _ _ E. rewrite Hp in E.
      change "/machine/request" with ("/machine/" +:+ "request") in E.
      by apply machine_path_inj in E.
    + intros id' _ Hget. congruence.
    + intros id' _ _ Hm. apply startMachineMatch_Some in Hm as [_ E].
      rewrite Hp in E. destruct Hid as [_ Hid].
      by apply start_path_not_machine_path in E.
Qed.

(** *** Statements that rest on the contracts of table and cache *)

Section FurtherWithLaws.
Context `{!MachineStateTableLaws T, !DataCacheLaws C}.

(** X8.  After a Reserve that returned OK, or a Start that returned OK or
    HARDWARE_ERROR, a Get for the machine of the returned record is served
    from the cache alone and returns that very record. *)
Theorem get_after_write (h : this) (request g : RequestModel)
    (u : MachineStateDocument) :
  req_machineId g = machineId u →
  ((handleRequestMachine request h).1
     = Returned {| statusCode := OK; machine := machine_doc u |} →
   handleGetMachine g (handleRequestMachine request h).2
   = (Returned {| statusCode := OK; machine := machine_doc u |},
      logs [Cache_get (machineId u)] (handleRequestMachine request h).2))
  ∧ (∀ code, code ≠ BAD_REQUEST →
       (handleStartMachine request h).1
         = Returned {| statusCode := code; machine := machine_doc u |} →
       handleGetMachine g (handleStartMachine request h).2
       = (Returned {| statusCode := OK; machine := machine_doc u |},
          logs [Cache_get (machineId u)] (handleStartMachine request h).2)).
Proof.
  intros Hg. split.
  - apply handleRequestMachine_paths; try done.
    intros a u' _ _ [= ->]. rewrite <- Hg. apply handleGetMachine_hit. simpl.
    rewrite cache_get_put. by rewrite decide_True.
  - intros code Hcode. apply handleStartMachine_paths; try done.
    + intros m _ _ [= <- _]. done.
    + intros m ok d u' _ _ _ _ [= _ ->]. rewrite <- Hg.
      apply handleGetMachine_hit. simpl.
      rewrite cache_get_put. by rewrite decide_True.
Qed.

(** X9.  Reserve followed by Start on the reserved machine: when Reserve
    has returned OK with a record [u], that record is in AWAITING_DROPOFF
    and bound to the requested job, and a Start for its machine then passes
    the guard and returns that record with status RUNNING and code OK when
    the device controller returns, with status ERROR and code
    HARDWARE_ERROR when it throws; the job stays bound either way. *)
Theorem reserve_then_start (h : this) (request g : RequestModel)
    (u : MachineStateDocument) (ok : bool) (d : S) :
  (handleRequestMachine request h).1
    = Returned {| statusCode := OK; machine := machine_doc u |} →
  req_machineId g = machineId u →
  startCycle (smc h) (machineId u) = (ok, d) →
  status u = AWAITING_DROPOFF
  ∧ jobId u = Some (req_jobId request)
  ∧ (handleStartMachine g (handleRequestMachine request h).2).1
    = Returned {| statusCode := if ok then OK else HARDWARE_ERROR;
                  machine := machine_doc
                               (set_status (if ok then RUNNING else ERROR) u) |}.
Proof.
  apply handleRequestMachine_paths; try done.
  intros a u' _ Eu [= ->] Hg Hsmc.
  pose proof (getMachine_machineId _ _ _ Eu) as Hid.
  assert (status u = AWAITING_DROPOFF ∧ jobId u = Some (req_jobId request))
    as [Hst Hjob].
  { rewrite getMachine_reserved, decide_True in Eu by done.
    destruct (getMachine (table h) (machineId a)) as [u0|]; simpl in Eu; [|done].
    by injection Eu as <-. }
  split; [done|]. split; [done|].
  match goal with |- (handleStartMachine g ?h1).1 = _ => set (h' := h1) end.
  assert (resolved h' (req_machineId g) = Some u) as Hr.
  { unfold resolved, h'. simpl. rewrite cache_get_put, decide_True; done. }
  rewrite (handleStartMachine_started h' g u ok d Hr Hst Hsmc).
  assert (getMachine (updateMachineStatus (table h') (machineId u)
                        (if ok then RUNNING else ERROR)) (machineId u)
          = Some (set_status (if ok then RUNNING else ERROR) u)) as ->.
  { rewrite getMachine_updateMachineStatus, decide_True by done.
    unfold h'. simpl table. rewrite Hid, Eu. done. }
  done.
Qed.

(** X10.  A machine cannot be started twice: after a Start that returned OK
    or HARDWARE_ERROR with a record, a second Start for that machine is
    answered BAD_REQUEST with the same record from the cache alone; the
    device controller is not called again and nothing is written. *)
Theorem start_twice_rejected (h : this) (request g : RequestModel)
    (code : HttpResponseCode) (u : MachineStateDocument) :
  code ≠ BAD_REQUEST →
  (handleStartMachine request h).1
    = Returned {| statusCode := code; machine := machine_doc u |} →
  req_machineId g = machineId u →
  handleStartMachine g (handleStartMachine request h).2
  = (Returned {| statusCode := BAD_REQUEST; machine := machine_doc u |},
     logs [Cache_get (machineId u)] (handleStartMachine request h).2).
Proof.
  intros Hcode. apply handleStartMachine_paths; try done.
  - intros m _ _ [= <- _]. done.
  - intros m ok d u' _ _ _ Eu [= _ ->] Hg.
    destruct (getMachine_updated_status _ _ _ _ Eu) as [Hst _].
    match goal with |- handleStartMachine g ?h1 = _ => set (h' := h1) end.
    assert (cache_get (cache h') (req_machineId g) = Some u) as Hc.
    { unfold h'. simpl. rewrite cache_get_put, decide_True; done. }
    rewrite (handleStartMachine_rejected h' g u).
    + unfold resolve_calls. by rewrite Hc, Hg.
    + unfold resolved. by rewrite Hc.
    + rewrite Hst. by destruct ok.
Qed.

(** X11.  Get asked twice: a Get that returned OK is answered the second
    time from the cache alone, with the same record; a Get that returned
    NOT_FOUND reads the table again the second time, since a miss leaves
    nothing in the cache. *)
Theorem get_twice (h : this) (request : RequestModel) :
  (∀ u, (handleGetMachine request h).1
          = Returned {| statusCode := OK; machine := machine_doc u |} →
        handleGetMachine request (handleGetMachine request h).2
        = (Returned {| statusCode := OK; machine := machine_doc u |},
           logs [Cache_get (req_machineId request)] (handleGetMachine request h).2))
  ∧ ((handleGetMachine request h).1
       = Returned {| statusCode := NOT_FOUND; machine := machine_undefined |} →
     handleGetMachine request (handleGetMachine request h).2
     = (Returned {| statusCode := NOT_FOUND; machine := machine_undefined |},
        logs [Cache_get (req_machineId request);
              Table_getMachine (req_machineId request)]
          (handleGetMachine request h).2)).
Proof.
  split.
  - intros u. apply handleGetMachine_paths; try done.
    + intros m Hc [= ->]. by apply handleGetMachine_hit.
    + intros m Hc Ht [= ->]. apply handleGetMachine_hit. simpl.
      rewrite cache_get_put, decide_True; [done|].
      by eapply getMachine_machineId.
  - apply handleGetMachine_paths; try done.
    intros Hc Ht _. by apply handleGetMachine_miss.
Qed.

(** X12.  Start on a machine the cache holds in AWAITING_DROPOFF but the
    table no longer holds: the device controller is called all the same,
    the status write finds no record, and the answer is NOT_FOUND with no
    machine, whether the cycle started or not; the cache keeps its entry. *)
Theorem start_cached_but_vanished (h : this) (request : RequestModel)
    (m : MachineStateDocument) (ok : bool) (d : S) :
  cache_get (cache h) (req_machineId request) = Some m →
  status m = AWAITING_DROPOFF →
  getMachine (table h) (machineId m) = None →
  startCycle (smc h) (machineId m) = (ok, d) →
  handleStartMachine request h
  = (Returned {| statusCode := NOT_FOUND; machine := machine_undefined |},
     {| cache := cache h;
        table := updateMachineStatus (table h) (machineId m)
                   (if ok then RUNNING else ERROR);
        idp := idp h; smc := d;
        calls := calls h ++
          [Cache_get (req_machineId request);
           Smc_startCycle (machineId m);
           Table_updateMachineStatus (machineId m) (if ok then RUNNING else ERROR);
           Table_getMachine (machineId m)] |}).
Proof.
  intros Hc Hst Ht Hsmc.
  assert (resolved h (req_machineId request) = Some m) as Hr.
  { unfold resolved. by rewrite Hc. }
  rewrite (handleStartMachine_started h request m ok d Hr Hst Hsmc).
  rewrite getMachine_updateMachineStatus, decide_True, Ht by done. simpl.
  unfold resolve_calls. by rewrite Hc.
Qed.

(** *** The cache never disagrees with the table *)

Lemma coherent_logs (l : list Call) (h : this) : coherent h → coherent (logs l h).
Proof. done. Qed.

Lemma handleRequestMachine_coherent (h : this) (request : RequestModel) :
  coherent h → coherent (handleRequestMachine request h).2.
Proof.
  intros Hco. apply handleRequestMachine_paths.
  - intros _. by apply coherent_logs.
  - intros a u _ Eu k m. simpl.
    pose proof (getMachine_machineId _ _ _ Eu) as Hid.
    rewrite cache_get_put. case_decide as Hk.
    + intros [= <-]. by rewrite <- Hk, Hid.
    + intros Hc. rewrite getMachine_reserved, decide_False by congruence.
      by apply Hco.
  - intros a _ Eu k m. simpl. intros Hc. apply Hco in Hc.
    rewrite getMachine_reserved. case_decide as Hk; [|done].
    subst k. rewrite getMachine_reserved, decide_True, Hc in Eu by done. done.
Qed.

Lemma handleGetMachine_coherent (h : this) (request : RequestModel) :
  coherent h → coherent (handleGetMachine request h).2.
Proof.
  intros Hco. apply handleGetMachine_paths.
  - intros m _. by apply coherent_logs.
  - intros m _ Em k m'. simpl.
    pose proof (getMachine_machineId _ _ _ Em) as Hid.
    rewrite cache_get_put. case_decide as Hk.
    + intros [= <-]. by rewrite <- Hk, Hid.
    + apply Hco.
  - intros _ _. by apply coherent_logs.
Qed.

Lemma handleStartMachine_coherent (h : this) (request : RequestModel) :
  coherent h → coherent (handleStartMachine request h).2.
Proof.
  intros Hco. apply handleStartMachine_paths.
  - intros _. by apply coherent_logs.
  - intros m _ _. by apply coherent_logs.
  - intros m ok d u _ _ _ Eu k m'. simpl.
    pose proof (getMachine_machineId _ _ _ Eu) as Hid.
    rewrite cache_get_put. case_decide as Hk.
    + intros [= <-]. by rewrite <- Hk, Hid.
    + intros Hc. rewrite getMachine_updateMachineStatus, decide_False by congruence.
      by apply Hco.
  - intros m ok d _ _ _ Eu k m'. simpl. intros Hc. apply Hco in Hc.
    rewrite getMachine_updateMachineStatus. case_decide as Hk; [|done].
    subst k. rewrite getMachine_updateMachineStatus, decide_True, Hc in Eu by done.
    done.
Qed.

(** X13.  If every cache entry is the record the table holds under that
    key, the same is true after [handle], for every request: each write to
    the table that leaves a record is followed by the write of that record
    to the cache. *)
Theorem handle_keeps_coherent (h : this) (request : RequestModel) :
  coherent h → coherent (handle request h).2.
Proof.
  intros Hco. apply handle_paths; intros.
  - by apply coherent_logs.
  - by apply handleRequestMachine_coherent, coherent_logs.
  - by apply handleGetMachine_coherent, coherent_logs.
  - by apply handleStartMachine_coherent, coherent_logs.
  - by apply coherent_logs.
Qed.

(** X16.  If every cache entry sits under the id of the machine it
    describes, the same is true after [handle], for every request and any
    table: the handler only ever writes a record under that record's own
    [machineId]. *)
Theorem handle_keeps_cache_keyed (h : this) (request : RequestModel) :
  cache_keyed (cache h) → cache_keyed (cache (handle request h).2).
Proof.
  intros Hk. apply handle_paths; intros; try done.
  - by apply handleRequestMachine_keyed.
  - by apply handleGetMachine_keyed.
  - by apply handleStartMachine_keyed.
Qed.

End FurtherWithLaws.

End Further.

(** ** The statements at work on the small installation *)

Lemma start_device_failure_witness :
  resolved demo "m2" = Some m2
  ∧ startCycle (smc demo) "m2" = (false, ["m2"])
  ∧ (handleStartMachine (with_machineId (request_of "secret" "POST" "/machine/m2/start") "m2")
       demo).1
    = Returned {| statusCode := HARDWARE_ERROR; machine := machine_doc (set_status ERROR m2) |}
  ∧ cache_get
      (cache (handleStartMachine
                (with_machineId (request_of "secret" "POST" "/machine/m2/start") "m2")
                demo).2) "m2"
    = Some (set_status ERROR m2).
Proof.
  split; [reflexivity|]. split; [reflexivity|].
  destruct (start_device_failure demo
              (with_machineId (request_of "secret" "POST" "/machine/m2/start") "m2")
              m2 ["m2"]) as (_ & _ & Hread & _); [reflexivity..|].
  destruct (Hread (set_status ERROR m2)) as (_ & Hcache & Hres); [reflexivity|].
  split; [exact Hres|exact Hcache].
Defined.

Lemma start_device_success_witness :
  resolved demo "m1" = Some m1
  ∧ startCycle (smc demo) "m1" = (true, ["m2"])
  ∧ (handleStartMachine (with_machineId (request_of "secret" "POST" "/machine/m1/start") "m1")
       demo).1
    = Returned {| statusCode := OK; machine := machine_doc (set_status RUNNING m1) |}
  ∧ cache_get
      (cache (handleStartMachine
                (with_machineId (request_of "secret" "POST" "/machine/m1/start") "m1")
                demo).2) "m1"
    = Some (set_status RUNNING m1).
Proof.
  split; [reflexivity|]. split; [reflexivity|].
  destruct (start_device_success demo
              (with_machineId (request_of "secret" "POST" "/machine/m1/start") "m1")
              m1 ["m2"]) as (_ & Hread & _); [reflexivity..|].
  destruct (Hread (set_status RUNNING m1)) as (_ & Hcache & Hres); [reflexivity|].
  split; [exact Hres|exact Hcache].
Defined.

Lemma reserve_first_available_witness :
  listMachinesAtLocation (table demo) "loc-1" = [m0; m1; m2] ++ m3 :: [m4]
  ∧ firstAvailable demo "loc-1" = Some m3
  ∧ getMachine
      (table (handleRequestMachine (request_of "secret" "POST" "/machine/request") demo).2)
      "m3"
    = Some (set_jobId "job-7" (set_status AWAITING_DROPOFF m3))
  ∧ cache_get
      (cache (handleRequestMachine (request_of "secret" "POST" "/machine/request") demo).2)
      "m3"
    = Some (set_jobId "job-7" (set_status AWAITING_DROPOFF m3))
  ∧ (handleRequestMachine (request_of "secret" "POST" "/machine/request") demo).1
    = Returned {| statusCode := OK;
                  machine := machine_doc
                               (set_jobId "job-7" (set_status AWAITING_DROPOFF m3)) |}.
Proof.
  split; [reflexivity|].
  destruct (reserve_first_available demo (request_of "secret" "POST" "/machine/request")
              [m0; m1; m2] [m4] m3) as (Hfirst & _ & Hread & _).
  - reflexivity.
  - repeat constructor; discriminate.
  - reflexivity.
  - split; [exact Hfirst|]. split; [reflexivity|].
    destruct (Hread (set_jobId "job-7" (set_status AWAITING_DROPOFF m3)))
      as (_ & _ & Hcache & Hres); [reflexivity|].
    split; [exact Hcache|exact Hres].
Defined.

(** C2, as first worded, fails where the record cannot be read back: the
    listing holds an AVAILABLE machine after one that is not, the table
    keeps its contract, and the result is NOT_FOUND, not OK. *)
Lemma reserve_first_available_counterexample :
  listMachinesAtLocation (table demo_vanishing) "loc-1" = [m0] ++ m3 :: []
  ∧ Forall (fun m => status m ≠ AVAILABLE) [m0]
  ∧ status m3 = AVAILABLE
  ∧ (handleRequestMachine (request_of "secret" "POST" "/machine/request")
       demo_vanishing).1
    = Returned {| statusCode := NOT_FOUND; machine := machine_undefined |}
  ∧ getMachine
      (table (handleRequestMachine (request_of "secret" "POST" "/machine/request")
                demo_vanishing).2) "m3" = None
  ∧ ¬ ∃ u, (handleRequestMachine (request_of "secret" "POST" "/machine/request")
              demo_vanishing).1
           = Returned {| statusCode := OK; machine := machine_doc u |}.
Proof.
  split; [reflexivity|]. split; [repeat constructor; discriminate|].
  split; [reflexivity|]. split; [reflexivity|]. split; [reflexivity|].
  intros [u Hu]. discriminate Hu.
Qed.

Lemma invalid_token_throws_witness :
  handle (request_of "" "POST" "/machine/request") demo
  = (Thrown (Error_json UNAUTHORIZED "Invalid token"), demo)
  ∧ handle (request_of "guess" "GET" "/machine/m1") demo
    = (Thrown (Error_json UNAUTHORIZED "Invalid token"),
       logs [Idp_validateToken "guess"] demo).
Proof.
  split.
  - apply (invalid_token_throws demo (request_of "" "POST" "/machine/request")).
    left. reflexivity.
  - apply (invalid_token_throws demo (request_of "guess" "GET" "/machine/m1")).
    right. reflexivity.
Defined.

Lemma start_guard_rejects_witness :
  (handleStartMachine (with_machineId (request_of "secret" "POST" "/machine/m3/start") "m3")
     demo).1
  = Returned {| statusCode := BAD_REQUEST; machine := machine_doc m3 |}
  ∧ same_store demo
      (handleStartMachine
         (with_machineId (request_of "secret" "POST" "/machine/m3/start") "m3") demo).2
  ∧ calls (handleStartMachine
             (with_machineId (request_of "secret" "POST" "/machine/m3/start") "m3") demo).2
    = [Cache_get "m3"; Table_getMachine "m3"].
Proof.
  destruct (start_guard_rejects demo
              (with_machineId (request_of "secret" "POST" "/machine/m3/start") "m3") m3)
    as (Hres & Hstore & _ & Hcalls & _).
  - reflexivity.
  - discriminate.
  - split; [exact Hres|]. split; [exact Hstore|exact Hcalls].
Defined.

Lemma get_cache_first_witness :
  handleGetMachine (with_machineId (request_of "secret" "GET" "/machine/m1") "m1") demo_stale
  = (Returned {| statusCode := OK; machine := machine_doc (set_status RUNNING m1) |},
     logs [Cache_get "m1"] demo_stale)
  ∧ (handleGetMachine (with_machineId (request_of "secret" "GET" "/machine/m1") "m1") demo).1
    = Returned {| statusCode := OK; machine := machine_doc m1 |}
  ∧ handleGetMachine (with_machineId (request_of "secret" "GET" "/machine/m9") "m9") demo
    = (Returned {| statusCode := NOT_FOUND; machine := machine_undefined |},
       logs [Cache_get "m9"; Table_getMachine "m9"] demo).
Proof.
  split; [|split].
  - apply (get_cache_first demo_stale
             (with_machineId (request_of "secret" "GET" "/machine/m1") "m1")).
    reflexivity.
  - destruct (get_cache_first demo
                (with_machineId (request_of "secret" "GET" "/machine/m1") "m1"))
      as (_ & Hfill & _).
    rewrite (Hfill m1); reflexivity.
  - apply (get_cache_first demo
             (with_machineId (request_of "secret" "GET" "/machine/m9") "m9"));
      reflexivity.
Defined.

Lemma reserve_not_found_witness :
  handleRequestMachine
    {| method := "POST"; path := "/machine/request"; token := "secret";
       req_locationId := "loc-2"; req_jobId := "job-7"; req_machineId := "" |} demo
  = (Returned {| statusCode := NOT_FOUND; machine := machine_undefined |},
     logs [Table_listMachinesAtLocation "loc-2"] demo)
  ∧ (handleRequestMachine (request_of "secret" "POST" "/machine/request") demo_vanishing).1
    = Returned {| statusCode := NOT_FOUND; machine := machine_undefined |}.
Proof.
  split.
  - apply reserve_not_found. repeat constructor; discriminate.
  - destruct (reserve_not_found demo_vanishing
                (request_of "secret" "POST" "/machine/request")) as (_ & Hvanished & _).
    rewrite (Hvanished m3); reflexivity.
Defined.

Lemma handle_routes_witness :
  handle (request_of "secret" "POST" "/machine/request") demo
  = handleRequestMachine (request_of "secret" "POST" "/machine/request")
      (logs [Idp_validateToken "secret"] demo)
  ∧ handle (request_of "secret" "GET" "/machine/m1") demo
    = (Returned {| statusCode := OK; machine := machine_doc m1 |},
       {| cache := {[ "m1" := m1 ]}; table := table demo; idp := idp demo;
          smc := smc demo;
          calls := [Idp_validateToken "secret"; Cache_get "m1"; Table_getMachine "m1";
                    Cache_put "m1" m1] |})
  ∧ (handle (request_of "secret" "POST" "/machine/m2/start") demo).1
    = Returned {| statusCode := HARDWARE_ERROR;
                  machine := machine_doc (set_status ERROR m2) |}
  ∧ calls (handle (request_of "secret" "POST" "/machine/m2/start") demo).2
    = [Idp_validateToken "secret"; Cache_get "m2"; Table_getMachine "m2";
       Smc_startCycle "m2"; Table_updateMachineStatus "m2" ERROR;
       Table_getMachine "m2"; Cache_put "m2" (set_status ERROR m2)]
  ∧ handle (request_of "secret" "DELETE" "/machine/x") demo
    = (Returned {| statusCode := INTERNAL_SERVER_ERROR; machine := machine_null |},
       logs [Idp_validateToken "secret"] demo).
Proof.
  split; [|split; [|split; [|split]]].
  - apply (handle_routes demo (request_of "secret" "POST" "/machine/request"));
      [discriminate|reflexivity|reflexivity|reflexivity].
  - destruct (handle_routes demo (request_of "secret" "GET" "/machine/m1"))
      as (_ & Hget & _); [discriminate|reflexivity|].
    rewrite (Hget "m1"
               {| method := "GET"; path := "/machine/m1"; token := "secret";
                  req_locationId := ""; req_jobId := ""; req_machineId := "m1" |});
      [reflexivity|reflexivity|split; [discriminate|reflexivity]|reflexivity|reflexivity].
  - destruct (handle_routes demo (request_of "secret" "POST" "/machine/m2/start"))
      as (_ & _ & Hstart & _); [discriminate|reflexivity|].
    rewrite (Hstart "m2"
               {| method := "POST"; path := "/machine/m2/start"; token := "secret";
                  req_locationId := ""; req_jobId := ""; req_machineId := "m2" |});
      [reflexivity|reflexivity|split; [discriminate|reflexivity]|reflexivity|reflexivity].
  - destruct (handle_routes demo (request_of "secret" "POST" "/machine/m2/start"))
      as (_ & _ & Hstart & _); [discriminate|reflexivity|].
    rewrite (Hstart "m2"
               {| method := "POST"; path := "/machine/m2/start"; token := "secret";
                  req_locationId := ""; req_jobId := ""; req_machineId := "m2" |});
      [reflexivity|reflexivity|split; [discriminate|reflexivity]|reflexivity|reflexivity].
  - apply (handle_routes demo (request_of "secret" "DELETE" "/machine/x"));
      [discriminate|reflexivity| | |]; intros [Hm _]; discriminate Hm.
Defined.

Lemma start_trusts_cache_witness :
  getMachine (table demo_stale) "m1" = Some m1
  ∧ status m1 = AWAITING_DROPOFF
  ∧ handleStartMachine
      (with_machineId (request_of "secret" "POST" "/machine/m1/start") "m1") demo_stale
    = (Returned {| statusCode := BAD_REQUEST;
                   machine := machine_doc (set_status RUNNING m1) |},
       logs [Cache_get "m1"] demo_stale).
Proof.
  split; [reflexivity|]. split; [reflexivity|].
  destruct (start_trusts_cache demo_stale
              (with_machineId (request_of "secret" "POST" "/machine/m1/start") "m1")
              (set_status RUNNING m1) (table demo_stale)) as [Hreject _];
    [reflexivity|].
  apply Hreject. discriminate.
Defined.

Lemma other_machines_untouched_witness :
  same_machine "m4" demo
    (handleRequestMachine (request_of "secret" "POST" "/machine/request") demo).2
  ∧ same_machine "m2" demo
      (handleGetMachine (with_machineId (request_of "secret" "GET" "/machine/m1") "m1")
         demo).2
  ∧ same_machine "m1" demo
      (handleStartMachine
         (with_machineId (request_of "secret" "POST" "/machine/m2/start") "m2") demo).2.
Proof.
  split; [|split].
  - destruct (other_machines_untouched demo
                (request_of "secret" "POST" "/machine/request") "m4") as (Hreserve & _).
    apply (Hreserve m3); [reflexivity|discriminate].
  - destruct (other_machines_untouched demo
                (with_machineId (request_of "secret" "GET" "/machine/m1") "m1") "m2")
      as (_ & _ & Hget & _).
    apply Hget. discriminate.
  - destruct (other_machines_untouched demo
                (with_machineId (request_of "secret" "POST" "/machine/m2/start") "m2") "m1")
      as (_ & _ & _ & Hstart).
    apply Hstart; [apply MapCache_empty_keyed|discriminate].
Defined.

(** ** The further statements at work on the small installation *)

Lemma start_unknown_machine_witness :
  handleStartMachine (with_machineId (request_of "secret" "POST" "/machine/m9/start") "m9")
    demo
  = (Returned {| statusCode := NOT_FOUND; machine := machine_undefined |},
     logs [Cache_get "m9"; Table_getMachine "m9"] demo).
Proof.
  apply (start_unknown_machine demo
           (with_machineId (request_of "secret" "POST" "/machine/m9/start") "m9"));
    reflexivity.
Defined.

Lemma authorized_handle_returns_witness :
  (handle (request_of "secret" "POST" "/machine/m2/start") demo).1
  = Returned {| statusCode := HARDWARE_ERROR;
                machine := machine_doc (set_status ERROR m2) |}
  ∧ ∃ r, (handle (request_of "secret" "POST" "/machine/m2/start") demo).1 = Returned r
         ∧ envelope_shape r = true.
Proof.
  split; [reflexivity|].
  apply (authorized_handle_returns demo (request_of "secret" "POST" "/machine/m2/start")).
  split; [discriminate|reflexivity].
Defined.

Lemma handle_throws_only_unauthorized_witness :
  (handle (request_of "guess" "POST" "/machine/m1/start") demo).1
  = Thrown (Error_json UNAUTHORIZED "Invalid token")
  ∧ same_store demo (handle (request_of "guess" "POST" "/machine/m1/start") demo).2.
Proof.
  split; [reflexivity|].
  destruct (handle_throws_only_unauthorized demo
              (request_of "guess" "POST" "/machine/m1/start")
              (Error_json UNAUTHORIZED "Invalid token")) as (_ & _ & Hstore & _);
    [reflexivity|exact Hstore].
Defined.

Lemma get_requests_leave_table_witness :
  table (handle (request_of "secret" "GET" "/machine/m1") demo).2 = table demo
  ∧ table (handle (request_of "secret" "GET" "/machine/m1/start") demo).2 = table demo.
Proof.
  split.
  - destruct (get_requests_leave_table demo (request_of "secret" "GET" "/machine/m1"))
      as (Ht & _); [reflexivity|exact Ht].
  - destruct (get_requests_leave_table demo
                (request_of "secret" "GET" "/machine/m1/start")) as (Ht & _);
      [reflexivity|exact Ht].
Defined.

Lemma device_started_only_past_guard_witness :
  calls (handle (request_of "secret" "POST" "/machine/m1/start") demo).2
  = [Idp_validateToken "secret"; Cache_get "m1"; Table_getMachine "m1";
     Smc_startCycle "m1"; Table_updateMachineStatus "m1" RUNNING;
     Table_getMachine "m1"; Cache_put "m1" (set_status RUNNING m1)]
  ∧ ∃ l, calls (handle (request_of "secret" "POST" "/machine/m1/start") demo).2
         = calls demo ++ l
       ∧ length (List.filter is_startCycle l) ≤ 1
       ∧ ∀ id, In (Smc_startCycle id) l →
               authorized demo (request_of "secret" "POST" "/machine/m1/start")
               ∧ method (request_of "secret" "POST" "/machine/m1/start") = "POST"
               ∧ ∃ rid m,
                   startMachineMatch (path (request_of "secret" "POST" "/machine/m1/start"))
                     = Some rid
                   ∧ resolved demo rid = Some m
                   ∧ status m = AWAITING_DROPOFF
                   ∧ machineId m = id.
Proof.
  split; [reflexivity|].
  exact (device_started_only_past_guard demo
           (request_of "secret" "POST" "/machine/m1/start")).
Defined.

Lemma reserve_ignores_cache_witness :
  (handleRequestMachine (request_of "secret" "POST" "/machine/request") demo_stale).1
  = (handleRequestMachine (request_of "secret" "POST" "/machine/request") demo).1.
Proof.
  destruct (reserve_ignores_cache demo (request_of "secret" "POST" "/machine/request")
              (cache demo_stale)) as (Hres & _).
  exact Hres.
Defined.

Lemma get_returns_table_record_witness :
  (handleGetMachine (with_machineId (request_of "secret" "GET" "/machine/m5") "m5") demo).1
  = Returned {| statusCode := OK; machine := machine_doc m5 |}.
Proof.
  exact (get_returns_table_record demo
           (with_machineId (request_of "secret" "GET" "/machine/m5") "m5")
           (MapCache_empty_coherent _ _ _ _)).
Defined.

Lemma get_after_write_witness :
  handleGetMachine (with_machineId (request_of "secret" "GET" "/machine/m3") "m3")
    (handleRequestMachine (request_of "secret" "POST" "/machine/request") demo).2
  = (Returned {| statusCode := OK;
                 machine := machine_doc (set_jobId "job-7" (set_status AWAITING_DROPOFF m3)) |},
     logs [Cache_get "m3"]
       (handleRequestMachine (request_of "secret" "POST" "/machine/request") demo).2).
Proof.
  destruct (get_after_write demo (request_of "secret" "POST" "/machine/request")
              (with_machineId (request_of "secret" "GET" "/machine/m3") "m3")
              (set_jobId "job-7" (set_status AWAITING_DROPOFF m3))) as [Hreserve _];
    [reflexivity|].
  apply Hreserve. reflexivity.
Defined.

Lemma reserve_then_start_witness :
  (handleRequestMachine (request_of "secret" "POST" "/machine/request") demo).1
  = Returned {| statusCode := OK;
                machine := machine_doc
                             (set_jobId "job-7" (set_status AWAITING_DROPOFF m3)) |}
  ∧ (handleStartMachine
       (with_machineId (request_of "secret" "POST" "/machine/m3/start") "m3")
       (handleRequestMachine (request_of "secret" "POST" "/machine/request") demo).2).1
    = Returned {| statusCode := OK;
                  machine := machine_doc
                               (set_status RUNNING
                                  (set_jobId "job-7" (set_status AWAITING_DROPOFF m3))) |}.
Proof.
  split; [reflexivity|].
  destruct (reserve_then_start demo (request_of "secret" "POST" "/machine/request")
              (with_machineId (request_of "secret" "POST" "/machine/m3/start") "m3")
              (set_jobId "job-7" (set_status AWAITING_DROPOFF m3)) true ["m2"])
    as (_ & _ & Hstart); [reflexivity..|].
  exact Hstart.
Defined.

Lemma start_twice_rejected_witness :
  handleStartMachine (with_machineId (request_of "secret" "POST" "/machine/m1/start") "m1")
    (handleStartMachine
       (with_machineId (request_of "secret" "POST" "/machine/m1/start") "m1") demo).2
  = (Returned {| statusCode := BAD_REQUEST; machine := machine_doc (set_status RUNNING m1) |},
     logs [Cache_get "m1"]
       (handleStartMachine
          (with_machineId (request_of "secret" "POST" "/machine/m1/start") "m1") demo).2).
Proof.
  apply (start_twice_rejected demo
           (with_machineId (request_of "secret" "POST" "/machine/m1/start") "m1")
           (with_machineId (request_of "secret" "POST" "/machine/m1/start") "m1")
           OK (set_status RUNNING m1)); [discriminate|reflexivity|reflexivity].
Defined.

Lemma get_twice_witness :
  handleGetMachine (with_machineId (request_of "secret" "GET" "/machine/m1") "m1")
    (handleGetMachine (with_machineId (request_of "secret" "GET" "/machine/m1") "m1") demo).2
  = (Returned {| statusCode := OK; machine := machine_doc m1 |},
     logs [Cache_get "m1"]
       (handleGetMachine (with_machineId (request_of "secret" "GET" "/machine/m1") "m1")
          demo).2)
  ∧ handleGetMachine (with_machineId (request_of "secret" "GET" "/machine/m9") "m9")
      (handleGetMachine (with_machineId (request_of "secret" "GET" "/machine/m9") "m9")
         demo).2
    = (Returned {| statusCode := NOT_FOUND; machine := machine_undefined |},
       logs [Cache_get "m9"; Table_getMachine "m9"]
         (handleGetMachine (with_machineId (request_of "secret" "GET" "/machine/m9") "m9")
            demo).2).
Proof.
  split.
  - destruct (get_twice demo
                (with_machineId (request_of "secret" "GET" "/machine/m1") "m1"))
      as [Hok _].
    apply Hok. reflexivity.
  - destruct (get_twice demo
                (with_machineId (request_of "secret" "GET" "/machine/m9") "m9"))
      as [_ Hmiss].
    apply Hmiss. reflexivity.
Defined.

Lemma start_cached_but_vanished_witness :
  (handleStartMachine (with_machineId (request_of "secret" "POST" "/machine/m7/start") "m7")
     demo_orphan).1
  = Returned {| statusCode := NOT_FOUND; machine := machine_undefined |}
  ∧ calls (handleStartMachine
             (with_machineId (request_of "secret" "POST" "/machine/m7/start") "m7")
             demo_orphan).2
    = [Cache_get "m7"; Smc_startCycle "m7"; Table_updateMachineStatus "m7" RUNNING;
       Table_getMachine "m7"].
Proof.
  rewrite (start_cached_but_vanished demo_orphan
             (with_machineId (request_of "secret" "POST" "/machine/m7/start") "m7")
             m7 true ["m2"]); [|reflexivity..].
  split; reflexivity.
Defined.

Lemma handle_keeps_coherent_witness :
  coherent (handle (request_of "secret" "POST" "/machine/request") demo).2.
Proof.
  apply (handle_keeps_coherent demo (request_of "secret" "POST" "/machine/request")).
  apply MapCache_empty_coherent.
Defined.

Lemma unrouted_requests_witness :
  handle (request_of "secret" "PUT" "/machine/m1/start") demo
  = (Returned {| statusCode := INTERNAL_SERVER_ERROR; machine := machine_null |},
     checked (request_of "secret" "PUT" "/machine/m1/start") demo)
  ∧ handle (request_of "secret" "GET" "/machine/m_1") demo
    = (Returned {| statusCode := INTERNAL_SERVER_ERROR; machine := machine_null |},
       checked (request_of "secret" "GET" "/machine/m_1") demo)
  ∧ handle (request_of "secret" "POST" "/machine/m1") demo
    = (Returned {| statusCode := INTERNAL_SERVER_ERROR; machine := machine_null |},
       checked (request_of "secret" "POST" "/machine/m1") demo).
Proof.
  split; [|split].
  - destruct (unrouted_requests demo (request_of "secret" "PUT" "/machine/m1/start"))
      as (Hmethod & _); [split; [discriminate|reflexivity]|].
    apply Hmethod; discriminate.
  - destruct (unrouted_requests demo (request_of "secret" "GET" "/machine/m_1"))
      as (_ & Hget & _); [split; [discriminate|reflexivity]|].
    apply (Hget "m_1"); [reflexivity|reflexivity|].
    intros [_ Hid]. discriminate Hid.
  - destruct (unrouted_requests demo (request_of "secret" "POST" "/machine/m1"))
      as (_ & _ & Hpost); [split; [discriminate|reflexivity]|].
    apply (Hpost "m1"); [reflexivity|reflexivity| |discriminate].
    split; [discriminate|reflexivity].
Defined.

Lemma route_paths_round_trip_witness :
  getMachineMatch "/machine/m-1" = Some "m-1"
  ∧ startMachineMatch "/machine/m-1/start" = Some "m-1"
  ∧ startMachineMatch "/machine/m-1" = None
  ∧ getMachineMatch "/machine/m-1/start" = None.
Proof.
  apply (route_paths_round_trip "m-1"). split; [discriminate|reflexivity].
Defined.

Lemma handle_keeps_cache_keyed_witness :
  cache_keyed (cache (handle (request_of "secret" "POST" "/machine/m1/start") demo).2).
Proof.
  apply (handle_keeps_cache_keyed demo (request_of "secret" "POST" "/machine/m1/start")).
  apply MapCache_empty_keyed.
Defined.
